(** * The task executive of the excavation robot

    A shallow embedding of three pieces of the robot's coordination layer:

    - [Teleop]: [TeleopExecutive::processCommand]
      (tfr_executive/src/teleop_action_server.cpp);
    - [Localizer]: [Localizer::localize]
      (tfr_localization/src/localization_action_server.cpp);
    - [NavigationGoalManager]: the goal synthesizer declared in
      tfr_navigation/include/tfr_navigation/navigation_goal_manager.h.

    Both action servers are sequential programs that talk to the rest of
    the robot: they ask questions (is preemption requested, is the node
    still running, what does a service answer) and they act (publish a
    message, send or cancel a goal, set the result of the action).  The
    embedding keeps the programs as they are written and makes the rest of
    the robot explicit:

    - an environment [Env] gives the answer of the k-th call of each
      question, so that every interleaving of answers is covered;
    - a [World] counts the questions asked so far and records the actions
      in the order in which they were performed ([trace]);
    - a loop takes a bound on its number of iterations and yields [None]
      when the bound is reached first, since none of the loops of the
      source is bounded.

    Calls of ROS_INFO and ROS_WARN have no effect on control flow or on the
    messages sent and are left out.  A C++ [double] is modelled by a
    rational number: the programs only copy such values, take their
    opposite and multiply them by -1. *)

From Stdlib Require Import ZArith QArith String List Bool Lia.
Import ListNotations.

Local Open Scope Z_scope.

(** ** Messages *)

(** geometry_msgs/Vector3 *)
Module Vector3.
Record t : Type := mk { x : Q; y : Q; z : Q }.
Definition zero : t := mk 0 0 0.
End Vector3.

(** geometry_msgs/Twist; [Twist.zero] is the value of [geometry_msgs::Twist move_cmd{}]. *)
Module Twist.
Record t : Type := mk { linear : Vector3.t; angular : Vector3.t }.
Definition zero : t := mk Vector3.zero Vector3.zero.
Definition set_linear_x (v : Q) (m : t) : t :=
  mk (Vector3.mk v (Vector3.y (linear m)) (Vector3.z (linear m))) (angular m).
Definition set_angular_z (v : Q) (m : t) : t :=
  mk (linear m) (Vector3.mk (Vector3.x (angular m)) (Vector3.y (angular m)) v).
End Twist.

(** ros::Time and ros::Duration: seconds and nanoseconds. *)
Module Time.
Record t : Type := mk { sec : Z; nsec : Z }.
Definition zero : t := mk 0 0.
End Time.

Module Duration.
Record t : Type := mk { sec : Z; nsec : Z }.
Definition zero : t := mk 0 0.
End Duration.

(** geometry_msgs/Point *)
Module Point.
Record t : Type := mk { x : Q; y : Q; z : Q }.
Definition zero : t := mk 0 0 0.
End Point.

(** geometry_msgs/Quaternion *)
Module Quaternion.
Record t : Type := mk { x : Q; y : Q; z : Q; w : Q }.
Definition zero : t := mk 0 0 0 0.
End Quaternion.

(** geometry_msgs/Pose *)
Module Pose.
Record t : Type := mk { position : Point.t; orientation : Quaternion.t }.
Definition zero : t := mk Point.zero Quaternion.zero.
End Pose.

(** std_msgs/Header *)
Module Header.
Record t : Type := mk { seq : Z; stamp : Time.t; frame_id : string }.
Definition zero : t := mk 0 Time.zero EmptyString.
End Header.

(** geometry_msgs/PoseStamped; [PoseStamped.zero] is [geometry_msgs::PoseStamped bin_pose{}]. *)
Module PoseStamped.
Record t : Type := mk { header : Header.t; pose : Pose.t }.
Definition zero : t := mk Header.zero Pose.zero.
End PoseStamped.

(** The terminal states an action server gives to its goal. *)
Inductive Outcome : Type := Succeeded | Preempted | Aborted.

(** ** Sequential programs over a world

    [M W A] is a computation over a world [W] with a result in [A]; [None]
    is a loop that reached its bound. *)
Module Prog.

Definition M (W A : Type) : Type := W -> option (A * W).

Definition ret {W A} (a : A) : M W A := fun w => Some (a, w).

Definition bind {W A B} (m : M W A) (k : A -> M W B) : M W B :=
  fun w => match m w with
           | Some (a, w') => k a w'
           | None => None
           end.

Definition out_of_fuel {W A} : M W A := fun _ => None.

(** The world a computation ends in. *)
Definition exec {W A} (m : M W A) (w : W) : option W :=
  match m w with
  | Some (_, w') => Some w'
  | None => None
  end.

End Prog.

Declare Scope prog_scope.
Delimit Scope prog_scope with prog.
Notation "x <- c1 ;; c2" := (Prog.bind c1 (fun x => c2))
  (at level 61, c1 at next level, right associativity) : prog_scope.
Notation "c1 ;; c2" := (Prog.bind c1 (fun _ => c2))
  (at level 61, right associativity) : prog_scope.

(** How the body of a [switch] case or of a loop is left. *)
Inductive Flow : Type :=
| Break      (* [break], or the end of the body *)
| Return.    (* [return] *)

(** ** The teleop action server *)
Module Teleop.

(** tfr_utilities::TeleopCode.  The enumeration is declared in
    tfr_utilities/teleop_code.h, outside the files verified here, so the
    numeric values are left open; the constructors are the case labels of
    [processCommand], and [OTHER raw] stands for every value of
    [goal->code] that none of the labels matches. *)
Inductive TeleopCode : Type :=
| STOP_DRIVEBASE
| STOP_TURNTABLE
| FORWARD
| BACKWARD
| LEFT
| RIGHT
| CLOCKWISE
| COUNTERCLOCKWISE
| DIG
| DUMP
| RESET_DUMPING
| RESET_STARTING
| OTHER (raw : N).

(** TeleopExecutive::DriveVelocity *)
Record DriveVelocity : Type := mkDriveVelocity { getLinear : Q; getAngular : Q }.

(** The constants of tfr_utilities/control_code.h that [processCommand]
    uses.  The header is outside the files verified here: the values are
    parameters. *)
Record ControlCode : Type := mkControlCode {
  BIN_MIN : Q;          (* JointAngles::BIN_MIN *)
  BIN_MAX : Q;          (* JointAngles::BIN_MAX *)
  RAISED : Z;           (* BinCode::RAISED *)
  LOWERED : Z           (* BinCode::LOWERED *)
}.

(** tfr_msgs/DurationSrv and tfr_msgs/CodeSrv: the request is empty, only
    the response is kept.  A default-constructed message is all zeros. *)
Record DurationSrv : Type := mkDurationSrv { duration : Duration.t }.
Record CodeSrv : Type := mkCodeSrv { code : Z }.
Definition DurationSrv_default : DurationSrv := mkDurationSrv Duration.zero.
Definition CodeSrv_default : CodeSrv := mkCodeSrv 0.

(** tfr_msgs/DiggingGoal *)
Record DiggingGoal : Type := mkDiggingGoal { diggingTime : Duration.t }.

(** What the server does to the rest of the robot, in program order. *)
Inductive Event : Type :=
| PublishDrive (m : Twist.t)       (* drivebase_publisher.publish(m) *)
| PublishBin (data : Q)            (* bin_publisher.publish(bin_cmd) *)
| CallDiggingTime                  (* ros::service::call("digging_time", _) *)
| CallBinState                     (* ros::service::call("bin_state", _) *)
| SendGoal (g : DiggingGoal)       (* digging_client.sendGoal(g) *)
| CancelAllGoals                   (* digging_client.cancelAllGoals() *)
| Sleep                            (* frequency.sleep() *)
| SetResult (o : Outcome).         (* server.setSucceeded/setPreempted/setAborted *)

(** The answers of the rest of the robot.  A service call answers [None]
    when it returns false, and then leaves the response object as it was;
    it answers [Some r] when it returns true with response [r]. *)
Record Env : Type := mkEnv {
  isPreemptRequested : nat -> bool;     (* k-th server.isPreemptRequested() *)
  ok : nat -> bool;                     (* k-th ros::ok() *)
  digging_time : option Duration.t;     (* the "digging_time" service *)
  bin_state : nat -> option Z;          (* k-th call of the "bin_state" service *)
  isDone : nat -> bool                  (* k-th digging_client.getState().isDone() *)
}.

Record World : Type := mkWorld {
  preempt_calls : nat;
  ok_calls : nat;
  bin_calls : nat;
  done_calls : nat;
  trace : list Event
}.

Definition init : World := mkWorld 0 0 0 0 [].

Definition Cmd (A : Type) : Type := Prog.M World A.

Section Server.

Variable cc : ControlCode.
Variable drive_stats : DriveVelocity.
Variable env : Env.

Local Open Scope prog_scope.

Definition emit (e : Event) : Cmd unit :=
  fun w => Some (tt, mkWorld (preempt_calls w) (ok_calls w) (bin_calls w)
                             (done_calls w) (trace w ++ [e])).

Definition server_isPreemptRequested : Cmd bool :=
  fun w => Some (isPreemptRequested env (preempt_calls w),
                 mkWorld (S (preempt_calls w)) (ok_calls w) (bin_calls w)
                         (done_calls w) (trace w)).

Definition ros_ok : Cmd bool :=
  fun w => Some (ok env (ok_calls w),
                 mkWorld (preempt_calls w) (S (ok_calls w)) (bin_calls w)
                         (done_calls w) (trace w)).

Definition digging_client_isDone : Cmd bool :=
  fun w => Some (isDone env (done_calls w),
                 mkWorld (preempt_calls w) (ok_calls w) (bin_calls w)
                         (S (done_calls w)) (trace w)).

(** [ros::service::call("digging_time", srv)]: the flag the call returns and
    the service object after the call. *)
Definition call_digging_time (srv : DurationSrv) : Cmd (bool * DurationSrv) :=
  emit CallDiggingTime ;;
  match digging_time env with
  | Some d => Prog.ret (true, mkDurationSrv d)
  | None => Prog.ret (false, srv)
  end.

(** [ros::service::call("bin_state", srv)] *)
Definition call_bin_state (srv : CodeSrv) : Cmd (bool * CodeSrv) :=
  fun w =>
    let w' := mkWorld (preempt_calls w) (ok_calls w) (S (bin_calls w))
                      (done_calls w) (trace w ++ [CallBinState]) in
    match bin_state env (bin_calls w) with
    | Some c => Some ((true, mkCodeSrv c), w')
    | None => Some ((false, srv), w')
    end.

(** [server.isPreemptRequested() || !ros::ok()]; the right operand is only
    evaluated when the left one is false. *)
Definition preempt_or_shutdown : Cmd bool :=
  p <- server_isPreemptRequested ;;
  if p then Prog.ret true
  else (o <- ros_ok ;; Prog.ret (negb o)).

(** [!server.isPreemptRequested() && ros::ok()] *)
Definition running : Cmd bool :=
  p <- server_isPreemptRequested ;;
  if negb p then ros_ok else Prog.ret false.

(** The loop of the DIG case:
<<
    while (!digging_client.getState().isDone()) {
        if (server.isPreemptRequested() || ! ros::ok()) {
            digging_client.cancelAllGoals();
            server.setPreempted();
            return;
        }
        frequency.sleep();
    }
>> *)
Fixpoint dig_wait (fuel : nat) : Cmd Flow :=
  match fuel with
  | O => Prog.out_of_fuel
  | S fuel' =>
      done <- digging_client_isDone ;;
      if negb done then
        stop <- preempt_or_shutdown ;;
        if stop then
          emit CancelAllGoals ;;
          emit (SetResult Preempted) ;;
          Prog.ret Return
        else
          emit Sleep ;;
          dig_wait fuel'
      else Prog.ret Break
  end.

(** The loop of the DUMP and RESET_DUMPING cases, the same text up to the
    bin state awaited and the command published:
<<
    while (!server.isPreemptRequested() && ros::ok()) {
        ros::service::call("bin_state", query);
        if (static_cast<BinCode>(query.response.code) == target)
            break;
        bin_publisher.publish(bin_cmd);
        frequency.sleep();
    }
>>
    The result is the service object [query] when the loop is left. *)
Fixpoint bin_wait (target : Z) (bin_cmd : Q) (fuel : nat) (query : CodeSrv)
  : Cmd CodeSrv :=
  match fuel with
  | O => Prog.out_of_fuel
  | S fuel' =>
      go <- running ;;
      if go then
        r <- call_bin_state query ;;
        let query' := snd r in
        if code query' =? target then Prog.ret query'
        else
          emit (PublishBin bin_cmd) ;;
          emit Sleep ;;
          bin_wait target bin_cmd fuel' query'
      else Prog.ret query
  end.

(** The body shared by the DUMP and RESET_DUMPING cases. *)
Definition move_bin (target : Z) (bin_cmd : Q) (fuel : nat) (move_cmd : Twist.t)
  : Cmd Flow :=
  emit (PublishDrive move_cmd) ;;
  bin_wait target bin_cmd fuel CodeSrv_default ;;
  p <- server_isPreemptRequested ;;
  if p then
    emit (SetResult Preempted) ;;
    Prog.ret Return
  else Prog.ret Break.

(** The [switch] of [processCommand]. *)
Definition dispatch (fuel : nat) (c : TeleopCode) : Cmd Flow :=
  let move_cmd := Twist.zero in
  match c with
  | STOP_DRIVEBASE =>
      emit (PublishDrive move_cmd) ;; Prog.ret Break
  | STOP_TURNTABLE =>
      Prog.ret Break
  | FORWARD =>
      emit (PublishDrive (Twist.set_linear_x (getLinear drive_stats) move_cmd)) ;;
      Prog.ret Break
  | BACKWARD =>
      emit (PublishDrive (Twist.set_linear_x (- getLinear drive_stats) move_cmd)) ;;
      Prog.ret Break
  | LEFT =>
      emit (PublishDrive (Twist.set_angular_z (getAngular drive_stats) move_cmd)) ;;
      Prog.ret Break
  | RIGHT =>
      emit (PublishDrive (Twist.set_angular_z (- getAngular drive_stats) move_cmd)) ;;
      Prog.ret Break
  | CLOCKWISE =>
      emit (PublishDrive (Twist.set_angular_z (getAngular drive_stats) move_cmd)) ;;
      Prog.ret Break
  | COUNTERCLOCKWISE =>
      emit (PublishDrive (Twist.set_angular_z (- getAngular drive_stats) move_cmd)) ;;
      Prog.ret Break
  | DIG =>
      r <- call_digging_time DurationSrv_default ;;
      let digging_time := snd r in
      emit (SendGoal (mkDiggingGoal (duration digging_time))) ;;
      dig_wait fuel
  | DUMP =>
      move_bin (RAISED cc) (BIN_MAX cc) fuel move_cmd
  | RESET_DUMPING =>
      move_bin (LOWERED cc) (BIN_MIN cc) fuel move_cmd
  | RESET_STARTING =>
      emit (PublishDrive move_cmd) ;; Prog.ret Break
  | OTHER _ =>
      emit (SetResult Aborted) ;; Prog.ret Return
  end.

(** What follows the [switch]: a case that leaves it by [break] reaches
    [server.setSucceeded(result)], a case that returns does not. *)
Definition finish (f : Flow) : Cmd unit :=
  match f with
  | Break => emit (SetResult Succeeded)
  | Return => Prog.ret tt
  end.

(** [TeleopExecutive::processCommand] *)
Definition processCommand (fuel : nat) (c : TeleopCode) : Cmd unit :=
  f <- dispatch fuel c ;;
  finish f.

(** One dispatch cycle from a fresh server: the world it ends in. *)
Definition run (fuel : nat) (c : TeleopCode) : option World :=
  Prog.exec (processCommand fuel c) init.

End Server.

(** *** Observations on a trace *)

Definition results (tr : list Event) : list Outcome :=
  flat_map (fun e => match e with SetResult o => [o] | _ => [] end) tr.

Definition goals_sent (tr : list Event) : list DiggingGoal :=
  flat_map (fun e => match e with SendGoal g => [g] | _ => [] end) tr.

Definition cancels (tr : list Event) : nat :=
  List.length (filter (fun e => match e with CancelAllGoals => true | _ => false end) tr).

(** The events of one iteration of the bin loop that does not leave it. *)
Definition bin_round (bin_cmd : Q) : list Event :=
  [CallBinState; PublishBin bin_cmd; Sleep].

(** The events of [n] such iterations in a row. *)
Definition rounds (bin_cmd : Q) (n : nat) : list Event :=
  concat (repeat (bin_round bin_cmd) n).

(** The bin state a command waits for and the position it publishes. *)
Definition bin_target (cc : ControlCode) (c : TeleopCode) : option (Z * Q) :=
  match c with
  | DUMP => Some (RAISED cc, BIN_MAX cc)
  | RESET_DUMPING => Some (LOWERED cc, BIN_MIN cc)
  | _ => None
  end.

(** The service object after a call that answered [a]. *)
Definition answered (srv : CodeSrv) (a : option Z) : CodeSrv :=
  match a with
  | Some c => mkCodeSrv c
  | None => srv
  end.

(** The service object after [n] more calls of "bin_state", the first of
    which is call number [first], from the object [srv]. *)
Fixpoint polled (env : Env) (srv : CodeSrv) (first n : nat) : CodeSrv :=
  match n with
  | O => srv
  | S n' => polled env (answered srv (bin_state env first)) (S first) n'
  end.

(** The code that [query] holds in a DUMP or RESET_DUMPING cycle when it is
    compared after the poll number [k] (from 0). *)
Definition compared (env : Env) (k : nat) : Z :=
  code (polled env CodeSrv_default 0 (S k)).

(** The code [v] that the response holds before poll number [k], in terms
    of the answers of the service: 0, the code of the default-constructed
    response, when no poll before [k] has succeeded; else the code that the
    latest poll to succeed before [k] answered. *)
Definition held_before (env : Env) (k : nat) (v : Z) : Prop :=
  (v = 0 /\ forall i, (i < k)%nat -> bin_state env i = None) \/
  (exists j, (j < k)%nat /\ bin_state env j = Some v /\
             forall i, (j < i < k)%nat -> bin_state env i = None).

(** [env], except that call number [k] of "bin_state" answers [a]. *)
Definition with_bin_state (env : Env) (k : nat) (a : option Z) : Env :=
  mkEnv (isPreemptRequested env) (ok env) (digging_time env)
        (fun i => if Nat.eqb i k then a else bin_state env i)
        (isDone env).

End Teleop.

(** How the body of a loop is left. *)
Inductive Step : Type :=
| Continue   (* [continue], or the end of the body: the next iteration starts *)
| Leave.     (* [break] *)

(** ** The localization action server *)
Module Localizer.

(** sensor_msgs/Image and sensor_msgs/CameraInfo are only passed on from the
    image service to the marker detector: a number stands for the payload. *)
Definition Image : Type := N.
Definition CameraInfo : Type := N.

(** The response of tfr_msgs/WrappedImage. *)
Record WrappedImage : Type := mkWrappedImage { image : Image; camera_info : CameraInfo }.

(** tfr_msgs/ArucoGoal and tfr_msgs/ArucoResult *)
Record ArucoGoal : Type := mkArucoGoal { goal_image : Image; goal_camera_info : CameraInfo }.
Record ArucoResult : Type := mkArucoResult {
  number_found : Z;
  relative_pose : PoseStamped.t
}.

Inductive Event : Type :=
| CallImage                                         (* image_client.call(request) *)
| SendArucoGoal (g : ArucoGoal)                     (* aruco.sendGoal(goal); aruco.waitForResult() *)
| TransformPose (p : PoseStamped.t) (frame : string)   (* tf_manipulator.transform_pose(p, _, frame) *)
| CallLocalizeBin (p : PoseStamped.t)               (* ros::service::call("localize_bin", request, _) *)
| SetResult (o : Outcome).                          (* server.setSucceeded / setPreempted *)

(** The answers of the rest of the robot, each indexed by the number of
    earlier calls of the same kind.
    - [image_client]: [None] when the call returns false.
    - [aruco]: [None] when [waitForResult] returns false, else what
      [getResult] points to.
    - [transform_pose]: [TfManipulator] belongs to tfr_utilities, outside
      the files verified here; all that [localize] uses is the flag it
      returns ([None] for false) and the pose it writes. *)
Record Env : Type := mkEnv {
  isPreemptRequested : nat -> bool;
  ok : nat -> bool;
  image_client : nat -> option WrappedImage;
  aruco : nat -> ArucoGoal -> option ArucoResult;
  transform_pose : nat -> PoseStamped.t -> string -> option PoseStamped.t;
  now : nat -> Time.t;
  localize_bin : nat -> PoseStamped.t -> bool
}.

Record World : Type := mkWorld {
  preempt_calls : nat;
  ok_calls : nat;
  image_calls : nat;
  aruco_calls : nat;
  transform_calls : nat;
  now_calls : nat;
  commit_calls : nat;
  trace : list Event
}.

Definition init : World := mkWorld 0 0 0 0 0 0 0 [].

Definition Cmd (A : Type) : Type := Prog.M World A.

(** The correction of the pose before it is committed:
<<
    bin_pose.pose.position.y *=-1;
    bin_pose.pose.position.z *=-1;
    bin_pose.header.frame_id = "odom";
    bin_pose.header.stamp = ros::Time::now();
>> *)
Definition flip_y (p : PoseStamped.t) : PoseStamped.t :=
  let q := PoseStamped.pose p in
  let pt := Pose.position q in
  PoseStamped.mk (PoseStamped.header p)
    (Pose.mk (Point.mk (Point.x pt) (Point.y pt * -1) (Point.z pt)) (Pose.orientation q)).

Definition flip_z (p : PoseStamped.t) : PoseStamped.t :=
  let q := PoseStamped.pose p in
  let pt := Pose.position q in
  PoseStamped.mk (PoseStamped.header p)
    (Pose.mk (Point.mk (Point.x pt) (Point.y pt) (Point.z pt * -1)) (Pose.orientation q)).

Definition set_frame_id (f : string) (p : PoseStamped.t) : PoseStamped.t :=
  let h := PoseStamped.header p in
  PoseStamped.mk (Header.mk (Header.seq h) (Header.stamp h) f) (PoseStamped.pose p).

Definition set_stamp (t : Time.t) (p : PoseStamped.t) : PoseStamped.t :=
  let h := PoseStamped.header p in
  PoseStamped.mk (Header.mk (Header.seq h) t (Header.frame_id h)) (PoseStamped.pose p).

Section Server.

Variable env : Env.

Local Open Scope prog_scope.
Local Open Scope string_scope.

Definition emit (e : Event) : Cmd unit :=
  fun w => Some (tt, mkWorld (preempt_calls w) (ok_calls w) (image_calls w)
                             (aruco_calls w) (transform_calls w) (now_calls w)
                             (commit_calls w) (trace w ++ [e])).

Definition server_isPreemptRequested : Cmd bool :=
  fun w => Some (isPreemptRequested env (preempt_calls w),
                 mkWorld (S (preempt_calls w)) (ok_calls w) (image_calls w)
                         (aruco_calls w) (transform_calls w) (now_calls w)
                         (commit_calls w) (trace w)).

Definition ros_ok : Cmd bool :=
  fun w => Some (ok env (ok_calls w),
                 mkWorld (preempt_calls w) (S (ok_calls w)) (image_calls w)
                         (aruco_calls w) (transform_calls w) (now_calls w)
                         (commit_calls w) (trace w)).

(** [image_client.call(request)] *)
Definition image_client_call : Cmd (option WrappedImage) :=
  fun w => Some (image_client env (image_calls w),
                 mkWorld (preempt_calls w) (ok_calls w) (S (image_calls w))
                         (aruco_calls w) (transform_calls w) (now_calls w)
                         (commit_calls w) (trace w ++ [CallImage])).

(** [aruco.sendGoal(goal)] followed by [aruco.waitForResult()] *)
Definition aruco_sendGoal_waitForResult (g : ArucoGoal) : Cmd (option ArucoResult) :=
  fun w => Some (aruco env (aruco_calls w) g,
                 mkWorld (preempt_calls w) (ok_calls w) (image_calls w)
                         (S (aruco_calls w)) (transform_calls w) (now_calls w)
                         (commit_calls w) (trace w ++ [SendArucoGoal g])).

(** [tf_manipulator.transform_pose(p, bin_pose, frame)] *)
Definition tf_transform_pose (p : PoseStamped.t) (frame : string)
  : Cmd (option PoseStamped.t) :=
  fun w => Some (transform_pose env (transform_calls w) p frame,
                 mkWorld (preempt_calls w) (ok_calls w) (image_calls w)
                         (aruco_calls w) (S (transform_calls w)) (now_calls w)
                         (commit_calls w) (trace w ++ [TransformPose p frame])).

(** [ros::Time::now()] *)
Definition ros_Time_now : Cmd Time.t :=
  fun w => Some (now env (now_calls w),
                 mkWorld (preempt_calls w) (ok_calls w) (image_calls w)
                         (aruco_calls w) (transform_calls w) (S (now_calls w))
                         (commit_calls w) (trace w)).

(** [ros::service::call("localize_bin", request, response)] *)
Definition call_localize_bin (p : PoseStamped.t) : Cmd bool :=
  fun w => Some (localize_bin env (commit_calls w) p,
                 mkWorld (preempt_calls w) (ok_calls w) (image_calls w)
                         (aruco_calls w) (transform_calls w) (now_calls w)
                         (S (commit_calls w)) (trace w ++ [CallLocalizeBin p])).

(** [server.isPreemptRequested() || !ros::ok()] *)
Definition preempt_or_shutdown : Cmd bool :=
  p <- server_isPreemptRequested ;;
  if p then Prog.ret true
  else (o <- ros_ok ;; Prog.ret (negb o)).

(** The body of the [while (true)] of [Localizer::localize]. *)
Definition localize_body : Cmd Step :=
  stop <- preempt_or_shutdown ;;
  if stop then
    emit (SetResult Preempted) ;;
    Prog.ret Leave
  else
    request <- image_client_call ;;
    match request with
    | None => Prog.ret Continue
    | Some response =>
        let goal := mkArucoGoal (image response) (camera_info response) in
        finished <- aruco_sendGoal_waitForResult goal ;;
        match finished with
        | Some result =>
            if (number_found result =? 0)%Z then Prog.ret Continue
            else
              transformed <- tf_transform_pose (relative_pose result) "base_footprint" ;;
              match transformed with
              | None => Prog.ret Continue
              | Some bin_pose =>
                  let bin_pose := flip_y bin_pose in
                  let bin_pose := flip_z bin_pose in
                  let bin_pose := set_frame_id "odom" bin_pose in
                  stamp <- ros_Time_now ;;
                  let bin_pose := set_stamp stamp bin_pose in
                  committed <- call_localize_bin bin_pose ;;
                  if committed then
                    emit (SetResult Succeeded) ;;
                    Prog.ret Leave
                  else Prog.ret Continue
              end
        | None => Prog.ret Continue
        end
    end.

(** [Localizer::localize] *)
Fixpoint localize (fuel : nat) : Cmd unit :=
  match fuel with
  | O => Prog.out_of_fuel
  | S fuel' =>
      s <- localize_body ;;
      match s with
      | Continue => localize fuel'
      | Leave => Prog.ret tt
      end
  end.

Definition run (fuel : nat) : option World := Prog.exec (localize fuel) init.

(** The world at the top of the iteration that follows [n] iterations from
    [w], each of which ended by starting the next one. *)
Fixpoint after_iterations (n : nat) (w : World) : option World :=
  match n with
  | O => Some w
  | S n' =>
      match localize_body w with
      | Some (Continue, w') => after_iterations n' w'
      | _ => None
      end
  end.

End Server.

(** *** Observations on a trace *)

Definition results (tr : list Event) : list Outcome :=
  flat_map (fun e => match e with SetResult o => [o] | _ => [] end) tr.

Definition commits (tr : list Event) : list PoseStamped.t :=
  flat_map (fun e => match e with CallLocalizeBin p => [p] | _ => [] end) tr.

(** What one iteration meets, read off the answers that the environment has
    for the calls of an iteration that starts in world [w]. *)
Inductive Attempt : Type :=
| PreemptRequest        (* preemption is requested, or the node is shutting down *)
| ImageCallFailed       (* the image service call returns false *)
| ArucoUnreachable      (* waitForResult returns false *)
| NoMarkers             (* number_found is 0 *)
| TransformFailed       (* transform_pose returns false *)
| CommitFailed (p : PoseStamped.t)   (* the localize_bin call with [p] returns false *)
| Committed (p : PoseStamped.t).     (* the localize_bin call with [p] returns true *)

Definition attempt (env : Env) (w : World) : Attempt :=
  if isPreemptRequested env (preempt_calls w) || negb (ok env (ok_calls w))
  then PreemptRequest
  else
    match image_client env (image_calls w) with
    | None => ImageCallFailed
    | Some response =>
        match aruco env (aruco_calls w)
                    (mkArucoGoal (image response) (camera_info response)) with
        | None => ArucoUnreachable
        | Some result =>
            if number_found result =? 0 then NoMarkers
            else
              match transform_pose env (transform_calls w) (relative_pose result)
                                   "base_footprint"%string with
              | None => TransformFailed
              | Some p =>
                  let sent := set_stamp (now env (now_calls w))
                                (set_frame_id "odom"%string (flip_z (flip_y p))) in
                  if localize_bin env (commit_calls w) sent
                  then Committed sent
                  else CommitFailed sent
              end
        end
    end.

(** The failures after which the loop is expected to try again. *)
Definition transient (a : Attempt) : bool :=
  match a with
  | ImageCallFailed | ArucoUnreachable | NoMarkers | TransformFailed
  | CommitFailed _ => true
  | PreemptRequest | Committed _ => false
  end.

(** What an iteration adds to the results and to the commit calls. *)
Definition result_of (a : Attempt) : list Outcome :=
  match a with
  | PreemptRequest => [Preempted]
  | Committed _ => [Succeeded]
  | _ => []
  end.

Definition commit_of (a : Attempt) : list PoseStamped.t :=
  match a with
  | CommitFailed p | Committed p => [p]
  | _ => []
  end.

Definition step_of (a : Attempt) : Step :=
  match a with
  | PreemptRequest | Committed _ => Leave
  | _ => Continue
  end.

End Localizer.

(** ** The navigation goal synthesizer *)
Module NavigationGoalManager.

(** [NavigationGoalManager::GeometryConstraints], as the header has it. *)
Record GeometryConstraints : Type := mkGeometryConstraints {
  get_safe_mining_distance : Q;
  get_finish_line : Q
}.

(** The members of [NavigationGoalManager]. *)
Record t : Type := mk {
  constraints : GeometryConstraints;
  reference_frame : string
}.

(** Modelled from the spec: tfr_utilities::LocationCode, declared in
    tfr_utilities/location_codes.h, outside the files verified here.  The
    spec lists the symbolic destinations Mining-Site, Bin, Finish-Line and
    Start; [OTHER raw] is any other value of the code. *)
Inductive LocationCode : Type :=
| MINING_SITE
| BIN
| FINISH_LINE
| START
| OTHER (raw : N).

(** Modelled from the spec: the location codes the synthesizer supports,
    which are the destinations the spec lists. *)
Definition supported (c : LocationCode) : bool :=
  match c with
  | OTHER _ => false
  | _ => true
  end.

(** Modelled from the spec: the Navigation Goal, a pose in a named
    reference frame (the header fills a move_base_msgs/MoveBaseGoal). *)
Record NavigationGoal : Type := mkNavigationGoal {
  frame_id : string;
  target_pose : Pose.t
}.

(** Modelled from the spec: the explicit error of the synthesizer, its
    only failure mode. *)
Inductive Error : Type :=
| UnsupportedLocation (c : LocationCode).

Section Synthesizer.

(** Modelled from the spec: the geometry of the goals, of which the spec
    only says that it is made of distances along or offset from a reference
    axis that derive from the constraints.  It is a parameter. *)
Variable geometry : GeometryConstraints -> LocationCode -> Pose.t.

(** Modelled from the spec: [NavigationGoalManager::initialize_goal], of
    which the header only has the declaration
    [void initialize_goal(move_base_msgs::MoveBaseGoal&, const tfr_utilities::LocationCode&)];
    the body is outside the files verified here.
    The goal that the declaration takes by reference is the result here.
    By the spec the function is pure, computes the pose from the location
    code, the constraints and the reference frame name, and signals an
    unsupported location code as an explicit error. *)
Definition initialize_goal (m : t) (goal : LocationCode) : Error + NavigationGoal :=
  if supported goal
  then inr (mkNavigationGoal (reference_frame m) (geometry (constraints m) goal))
  else inl (UnsupportedLocation goal).

(** A call on a manager: the result, and the manager after the call. *)
Definition call (goal : LocationCode) : Prog.M t (Error + NavigationGoal) :=
  fun m => Some (initialize_goal m goal, m).

End Synthesizer.

End NavigationGoalManager.

(** ** Environments and configurations used in examples *)
Module Examples.

Import Teleop.
Local Open Scope string_scope.

(** The default parameters of the teleop node: 0.25 and 0.1. *)
Definition velocities : DriveVelocity := mkDriveVelocity (1 # 4) (1 # 10).

Definition control_code : ControlCode := mkControlCode 0 (3 # 2) 1 0.

(** Nothing is preempted, the duration lookup fails, and the digging task
    is done at the first look. *)
Definition lookup_fails : Env :=
  mkEnv (fun _ => false) (fun _ => true) None (fun _ => Some 2) (fun _ => true).

(** The lookup answers 30 s; the digging task never finishes and
    preemption is requested from the third poll on. *)
Definition preempted_dig : Env :=
  mkEnv (fun k => Nat.leb 2 k) (fun _ => true) (Some (Duration.mk 30 0))
        (fun _ => Some 2) (fun _ => false).

(** The first poll of the bin answers RAISED; preemption is requested
    between that poll and the check that follows the loop. *)
Definition late_preempt : Env :=
  mkEnv (fun k => Nat.leb 1 k) (fun _ => true) None (fun _ => Some 1) (fun _ => true).

(** The bin is in transit (code 2) for two polls, then raised. *)
Definition bin_rises : Env :=
  mkEnv (fun _ => false) (fun _ => true) None
        (fun k => if Nat.leb 2 k then Some 1 else Some 2) (fun _ => true).

(** As [bin_rises], but the second poll fails. *)
Definition bin_rises_one_failure : Env :=
  mkEnv (fun _ => false) (fun _ => true) None
        (fun k => if Nat.leb 2 k then Some 1 else if Nat.eqb k 1 then None else Some 2)
        (fun _ => true).

(** The first poll of the bin fails; the bin is in transit after that. *)
Definition first_poll_fails : Env :=
  mkEnv (fun _ => false) (fun _ => true) None
        (fun k => if Nat.eqb k 0 then None else Some 2) (fun _ => true).

Import Localizer.

Definition seen_pose : PoseStamped.t :=
  PoseStamped.mk (Header.mk 7 (Time.mk 10 0) "rear_cam")
    (Pose.mk (Point.mk (1 # 2) (3 # 4) (5 # 1)) (Quaternion.mk 0 0 0 1)).

Definition base_pose : PoseStamped.t :=
  PoseStamped.mk (Header.mk 7 (Time.mk 10 0) "base_footprint")
    (Pose.mk (Point.mk (2 # 1) (1 # 4) (-1 # 8)) (Quaternion.mk 0 0 (1 # 2) (1 # 2))).

(** Two looks without a marker, then one marker; every call succeeds. *)
Definition third_time_lucky : Localizer.Env :=
  Localizer.mkEnv (fun _ => false) (fun _ => true)
    (fun k => Some (mkWrappedImage (N.of_nat k) 0%N))
    (fun k _ => Some (mkArucoResult (if Nat.leb 2 k then 1 else 0) seen_pose))
    (fun _ _ _ => Some base_pose)
    (fun _ => Time.mk 42 0)
    (fun _ _ => true).

(** The image service is down for one call, then markers are seen but the
    commit fails once; preemption is requested from the fourth check on. *)
Definition bumpy : Localizer.Env :=
  Localizer.mkEnv (fun k => Nat.leb 3 k) (fun _ => true)
    (fun k => if Nat.eqb k 0 then None else Some (mkWrappedImage (N.of_nat k) 0%N))
    (fun _ _ => Some (mkArucoResult 2 seen_pose))
    (fun _ _ _ => Some base_pose)
    (fun _ => Time.mk 42 0)
    (fun _ _ => false).

(** No marker is ever seen; preemption is requested from the third check
    on. *)
Definition blind : Localizer.Env :=
  Localizer.mkEnv (fun k => Nat.leb 2 k) (fun _ => true)
    (fun k => Some (mkWrappedImage (N.of_nat k) 0%N))
    (fun _ _ => Some (mkArucoResult 0 seen_pose))
    (fun _ _ _ => Some base_pose)
    (fun _ => Time.mk 42 0)
    (fun _ _ => true).

(** The world of [blind] after two iterations. *)
Definition blind_third_look : Localizer.World :=
  Localizer.mkWorld 2 2 2 2 0 0 0
    [CallImage; SendArucoGoal (mkArucoGoal 0%N 0%N);
     CallImage; SendArucoGoal (mkArucoGoal 1%N 0%N)].

(** The world of [bumpy] after its first iteration, in which the image
    call failed. *)
Definition bumpy_second_look : Localizer.World :=
  Localizer.mkWorld 1 1 1 0 0 0 0 [CallImage].

(** The pose that is committed from [base_pose] at time 42. *)
Definition bin_pose : PoseStamped.t :=
  PoseStamped.mk (Header.mk 7 (Time.mk 42 0) "odom")
    (Pose.mk (Point.mk (2 # 1) (-1 # 4) (1 # 8)) (Quaternion.mk 0 0 (1 # 2) (1 # 2))).

(** A geometry for the goal synthesizer: the goal lies on the x axis of
    the reference frame, at the distance the constraints give. *)
Definition on_axis (c : NavigationGoalManager.GeometryConstraints)
    (l : NavigationGoalManager.LocationCode) : Pose.t :=
  let at_x d := Pose.mk (Point.mk d 0 0) (Quaternion.mk 0 0 0 1) in
  match l with
  | NavigationGoalManager.MINING_SITE =>
      at_x (NavigationGoalManager.get_safe_mining_distance c)
  | NavigationGoalManager.FINISH_LINE =>
      at_x (NavigationGoalManager.get_finish_line c)
  | _ => at_x 0%Q
  end.

Definition manager : NavigationGoalManager.t :=
  NavigationGoalManager.mk (NavigationGoalManager.mkGeometryConstraints (9 # 2) (3 # 2))
                           "odom".

End Examples.

(** ** More observations on the teleop server *)
Module TeleopTrace.

Import Teleop.

Definition drive_messages (tr : list Event) : list Twist.t :=
  flat_map (fun e => match e with PublishDrive m => [m] | _ => [] end) tr.

Definition bin_messages (tr : list Event) : list Q :=
  flat_map (fun e => match e with PublishBin d => [d] | _ => [] end) tr.

Definition polls (tr : list Event) : nat :=
  List.length (filter (fun e => match e with CallBinState => true | _ => false end) tr).

(** The commands whose case has no loop. *)
Definition immediate (c : TeleopCode) : bool :=
  match c with
  | DIG | DUMP | RESET_DUMPING => false
  | _ => true
  end.

(** The world [w] after the events [evs], with no question asked. *)
Definition after_events (w : World) (evs : list Event) : World :=
  mkWorld (preempt_calls w) (ok_calls w) (bin_calls w) (done_calls w)
          (trace w ++ evs).

(** The goal that a Dig cycle sends: it carries the duration of the
    response object after the lookup. *)
Definition dig_goal (env : Env) : DiggingGoal :=
  mkDiggingGoal match digging_time env with
                | Some d => d
                | None => Duration.zero
                end.

(** The world of a Dig cycle when the wait for the digging task starts. *)
Definition dig_started (env : Env) : World :=
  mkWorld 0 0 0 0 [CallDiggingTime; SendGoal (dig_goal env)].

(** The ways in which the trace of a bin cycle ends, after its rounds. *)
Definition bin_tail (tail : list Event) : Prop :=
  tail = [CallBinState; SetResult Succeeded] \/
  tail = [CallBinState; SetResult Preempted] \/
  tail = [SetResult Succeeded] \/
  tail = [SetResult Preempted].

(** What a result tells about the command of its cycle. *)
Definition result_fits (c : TeleopCode) (o : Outcome) : Prop :=
  (o = Aborted <-> exists raw, c = OTHER raw) /\
  (o = Preempted -> immediate c = false).

Section Session.

Variable cc : ControlCode.
Variable drive_stats : DriveVelocity.
Variable env : Env.

Local Open Scope prog_scope.

(** The action server runs [processCommand] for one goal after the other:
    the cycles of the goals [cs], in their order. *)
Fixpoint session (fuel : nat) (cs : list TeleopCode) : Cmd unit :=
  match cs with
  | [] => Prog.ret tt
  | c :: cs' =>
      processCommand cc drive_stats env fuel c ;;
      session fuel cs'
  end.

End Session.

End TeleopTrace.

(** ** The start of the localization server *)
Module LocalizerStartup.

(** What the constructor of [Localizer] does, in program order. *)
Inductive Event : Type :=
| WaitForAruco     (* aruco.waitForServer() *)
| CallImage        (* image_client.call(request) *)
| StartServer.     (* server.start() *)

Record World : Type := mkWorld {
  image_calls : nat;
  trace : list Event
}.

Definition init : World := mkWorld 0 [].

Definition Cmd (A : Type) : Type := Prog.M World A.

Section Constructor.

(** The image service is the one that [Localizer::localize] calls later:
    its answers are the [image_client] of the environment of the server. *)
Variable env : Localizer.Env.

Local Open Scope prog_scope.

Definition emit (e : Event) : Cmd unit :=
  fun w => Some (tt, mkWorld (image_calls w) (trace w ++ [e])).

(** [image_client.call(request)]: the flag that the call returns. *)
Definition image_client_call : Cmd bool :=
  fun w => Some (match Localizer.image_client env (image_calls w) with
                 | Some _ => true
                 | None => false
                 end,
                 mkWorld (S (image_calls w)) (trace w ++ [CallImage])).

(** [while(!image_client.call(request));] *)
Fixpoint connect_image_client (fuel : nat) : Cmd unit :=
  match fuel with
  | O => Prog.out_of_fuel
  | S fuel' =>
      answered <- image_client_call ;;
      if negb answered then connect_image_client fuel' else Prog.ret tt
  end.

(** [Localizer::Localizer] *)
Definition constructor (fuel : nat) : Cmd unit :=
  emit WaitForAruco ;;
  connect_image_client fuel ;;
  emit StartServer.

End Constructor.

Definition starts (tr : list Event) : nat :=
  List.length (filter (fun e => match e with StartServer => true | _ => false end) tr).

End LocalizerStartup.

(** ** The launcher of the controller *)
Module ControllerLauncher.

(** The constants of tfr_control's controller.h that [main] uses:
    [Controller::kControllerCount] and the indices of [Actuator].  The
    header is outside the files verified here: the values are parameters. *)
Record ControllerH : Type := mkControllerH {
  kControllerCount : nat;
  kBin : nat;
  kLowerArm : nat;
  kUpperArm : nat;
  kScoop : nat
}.

(** urdf::JointLimits, of which [main] reads [lower] and [upper]. *)
Record JointLimits : Type := mkJointLimits { lower : Q; upper : Q }.

(** A loaded urdf::Model, as [main] uses it: what
    [model.getJoint(name)->limits] points to, or [None] when the joint or
    its limits are a null pointer. *)
Definition Model : Type := string -> option JointLimits.

(** The rest of the system.
    - [robot_description]: the parameter of this name, when it is set.
    - [initString]: the model that [urdf::Model::initString] loads from a
      description, or [None] when it returns false. *)
Record Env : Type := mkEnv {
  robot_description : option string;
  initString : string -> option Model;
  ok : nat -> bool;            (* k-th ros::ok() *)
  now : nat -> Time.t          (* k-th ros::Time::now() *)
}.

Inductive Event : Type :=
| SpinnerStart                                   (* spinner.start() *)
| ConstructController (fake : bool) (lower_limits upper_limits : list Q)
                                                 (* Controller controller(...) *)
| ConstructManager                               (* ControllerManager cm(&controller) *)
| Read                                           (* controller.read() *)
| Update (time : Time.t) (period : Duration.t)   (* cm.update(now, now - then) *)
| Write.                                         (* controller.write() *)

(** How [main] ends: with a status, or in undefined behaviour (a null
    pointer is dereferenced, or an array is written out of its bounds). *)
Inductive Exit : Type :=
| Returned (status : Z)
| Undefined.

Record World : Type := mkWorld {
  ok_calls : nat;
  now_calls : nat;
  trace : list Event
}.

Definition init : World := mkWorld 0 0 [].

Definition Cmd (A : Type) : Type := Prog.M World A.

(** [const bool use_fake_values = true;] *)
Definition use_fake_values : bool := true.

(** [a[i] = v] on an array of doubles: [None] out of the bounds. *)
Definition store (a : list Q) (i : nat) (v : Q) : option (list Q) :=
  if (i <? List.length a)%nat
  then Some (firstn i a ++ v :: skipn (S i) a)
  else None.

(** The two assignments for one joint:
<<
    lower_limits[i] = model.getJoint(name)->limits->lower;
    upper_limits[i] = model.getJoint(name)->limits->upper;
>> *)
Definition load_joint (model : Model) (i : nat) (name : string)
    (arrays : list Q * list Q) : option (list Q * list Q) :=
  match model name with
  | None => None
  | Some limits =>
      match store (fst arrays) i (lower limits) with
      | None => None
      | Some lower_limits =>
          match store (snd arrays) i (upper limits) with
          | None => None
          | Some upper_limits => Some (lower_limits, upper_limits)
          end
      end
  end.

Section Main.

Variable h : ControllerH.

(** [ros::Time::operator-], of the ROS client library. *)
Variable Time_minus : Time.t -> Time.t -> Duration.t.

Variable env : Env.

Local Open Scope prog_scope.
Local Open Scope string_scope.

(** The eight assignments that load the joint limits. *)
Definition load_limits (model : Model) (arrays : list Q * list Q)
  : option (list Q * list Q) :=
  match load_joint model (kBin h) "bin_joint" arrays with
  | None => None
  | Some arrays =>
      match load_joint model (kLowerArm h) "lower_arm_joint" arrays with
      | None => None
      | Some arrays =>
          match load_joint model (kUpperArm h) "upper_arm_joint" arrays with
          | None => None
          | Some arrays => load_joint model (kScoop h) "scoop_joint" arrays
          end
      end
  end.

Definition emit (e : Event) : Cmd unit :=
  fun w => Some (tt, mkWorld (ok_calls w) (now_calls w) (trace w ++ [e])).

Definition ros_ok : Cmd bool :=
  fun w => Some (ok env (ok_calls w), mkWorld (S (ok_calls w)) (now_calls w) (trace w)).

Definition ros_Time_now : Cmd Time.t :=
  fun w => Some (now env (now_calls w), mkWorld (ok_calls w) (S (now_calls w)) (trace w)).

(** The loop of [main]:
<<
    while (ros::ok()) {
        const ros::Time now = ros::Time::now();
        controller.read();
        cm.update(now, now - then);
        controller.write();
        then = now;
    }
>> *)
Fixpoint control_loop (fuel : nat) (then_ : Time.t) : Cmd unit :=
  match fuel with
  | O => Prog.out_of_fuel
  | S fuel' =>
      go <- ros_ok ;;
      if go then
        now <- ros_Time_now ;;
        emit Read ;;
        emit (Update now (Time_minus now then_)) ;;
        emit Write ;;
        control_loop fuel' now
      else Prog.ret tt
  end.

(** What precedes the construction of the controller: the limits, or the
    way in which [main] ends before. *)
Definition limits : Exit + (list Q * list Q) :=
  let lower_limits := repeat 0%Q (kControllerCount h) in
  let upper_limits := repeat 0%Q (kControllerCount h) in
  if use_fake_values then
    let desc := match robot_description env with
                | Some d => d
                | None => EmptyString
                end in
    if (String.length desc =? 0)%nat then inl (Returned (-1))
    else
      match initString env desc with
      | None => inl (Returned (-1))
      | Some model =>
          match load_limits model (lower_limits, upper_limits) with
          | None => inl Undefined
          | Some arrays => inr arrays
          end
      end
  else inr (lower_limits, upper_limits).

(** [main] of controller_launcher.cpp *)
Definition main (fuel : nat) : Cmd Exit :=
  emit SpinnerStart ;;
  match limits with
  | inl e => Prog.ret e
  | inr (lower_limits, upper_limits) =>
      emit (ConstructController use_fake_values lower_limits upper_limits) ;;
      emit ConstructManager ;;
      then_ <- ros_Time_now ;;
      control_loop fuel then_ ;;
      Prog.ret (Returned 0)
  end.

(** The events of the cycle number [k] (from 0) of the loop, when the time
    samples are taken from number [first] on: the sample number [first] is
    [then], taken before the loop. *)
Definition cycle (first k : nat) : list Event :=
  [Read;
   Update (now env (first + S k)) (Time_minus (now env (first + S k)) (now env (first + k)));
   Write].

Definition cycles (first n : nat) : list Event :=
  flat_map (cycle first) (seq 0 n).

End Main.

Definition hardware_events (tr : list Event) : list Event :=
  filter (fun e => match e with Read | Update _ _ | Write => true | _ => false end) tr.

End ControllerLauncher.

(** ** More environments used in examples *)
Module MoreExamples.

Import Examples.
Local Open Scope string_scope.

(** The digging task is done at the third look; nothing stops the wait. *)
Definition dig_finishes : Teleop.Env :=
  Teleop.mkEnv (fun _ => false) (fun _ => true) (Some (Duration.mk 30 0))
               (fun _ => Some 2) (fun k => Nat.leb 2 k).

(** The node shuts down at the second poll; the digging task never
    finishes. *)
Definition shutdown_soon : Teleop.Env :=
  Teleop.mkEnv (fun _ => false) (fun k => Nat.ltb k 1) None
               (fun _ => Some 2) (fun _ => false).

(** Nothing ever happens: the task is never done, the bin stays in
    transit, nobody preempts. *)
Definition stuck : Teleop.Env :=
  Teleop.mkEnv (fun _ => false) (fun _ => true) None (fun _ => Some 2) (fun _ => false).

(** Preemption is requested from the second check on; the bin stays in
    transit. *)
Definition preempted_bin : Teleop.Env :=
  Teleop.mkEnv (fun k => Nat.leb 1 k) (fun _ => true) None (fun _ => Some 2)
               (fun _ => false).

(** Every commit fails and nobody preempts. *)
Definition never_committed : Localizer.Env :=
  Localizer.mkEnv (fun _ => false) (fun _ => true)
    (fun k => Some (Localizer.mkWrappedImage (N.of_nat k) 0%N))
    (fun _ _ => Some (Localizer.mkArucoResult 2 seen_pose))
    (fun _ _ _ => Some base_pose)
    (fun _ => Time.mk 42 0)
    (fun _ _ => false).

(** The node is shut down before the first iteration. *)
Definition shut_down : Localizer.Env :=
  Localizer.mkEnv (fun _ => false) (fun _ => false)
    (fun k => Some (Localizer.mkWrappedImage (N.of_nat k) 0%N))
    (fun _ _ => Some (Localizer.mkArucoResult 2 seen_pose))
    (fun _ _ _ => Some base_pose)
    (fun _ => Time.mk 42 0)
    (fun _ _ => true).

(** A model of the robot with the four joints of the arm. *)
Definition arm : ControllerLauncher.Model :=
  fun name =>
    if String.eqb name "bin_joint" then Some (ControllerLauncher.mkJointLimits 0 (3 # 2))
    else if String.eqb name "lower_arm_joint"
         then Some (ControllerLauncher.mkJointLimits (-1 # 2) (1 # 2))
    else if String.eqb name "upper_arm_joint"
         then Some (ControllerLauncher.mkJointLimits (-1) 1)
    else if String.eqb name "scoop_joint"
         then Some (ControllerLauncher.mkJointLimits (-2) 2)
    else None.

Definition four_actuators : ControllerLauncher.ControllerH :=
  ControllerLauncher.mkControllerH 5 4 1 2 3.

(** Time as a number of nanoseconds, to give a difference of times. *)
Definition nanoseconds (t : Time.t) : Z := Time.sec t * 1000000000 + Time.nsec t.

Definition minus (a b : Time.t) : Duration.t :=
  let d := nanoseconds a - nanoseconds b in
  Duration.mk (d / 1000000000) (d mod 1000000000).

(** The description loads; the node runs for two cycles, 20 ms apart. *)
Definition two_cycles : ControllerLauncher.Env :=
  ControllerLauncher.mkEnv (Some "<robot/>") (fun _ => Some arm)
    (fun k => Nat.ltb k 2)
    (fun k => Time.mk 100 (Z.of_nat k * 20000000)).

(** The parameter robot_description is not set. *)
Definition no_description : ControllerLauncher.Env :=
  ControllerLauncher.mkEnv None (fun _ => Some arm) (fun _ => true)
    (fun k => Time.mk 100 0).

(** The arm without its scoop. *)
Definition arm_without_scoop : ControllerLauncher.Model :=
  fun name => if String.eqb name "scoop_joint" then None else arm name.

Definition scoop_missing : ControllerLauncher.Env :=
  ControllerLauncher.mkEnv (Some "<robot/>") (fun _ => Some arm_without_scoop)
    (fun _ => true) (fun k => Time.mk 100 0).

(** The node is already shut down; nobody preempts and the bin stays in
    transit. *)
Definition node_down : Teleop.Env :=
  Teleop.mkEnv (fun _ => false) (fun _ => false) None (fun _ => Some 2) (fun _ => false).

End MoreExamples.

(** * Properties *)

(** ** The teleop action server *)
Module TeleopProps.

Import Teleop.

(** *** Traces *)

Lemma results_app (a b : list Event) : results (a ++ b) = results a ++ results b.
Proof. apply flat_map_app. Qed.

Lemma goals_sent_app (a b : list Event) :
  goals_sent (a ++ b) = goals_sent a ++ goals_sent b.
Proof. apply flat_map_app. Qed.

Lemma cancels_app (a b : list Event) : cancels (a ++ b) = (cancels a + cancels b)%nat.
Proof. unfold cancels. now rewrite filter_app, length_app. Qed.

Lemma results_sleeps (n : nat) : results (repeat Sleep n) = [].
Proof. induction n; simpl; auto. Qed.

Lemma cancels_sleeps (n : nat) : cancels (repeat Sleep n) = 0%nat.
Proof. induction n; simpl; auto. Qed.

Lemma results_rounds (bin_cmd : Q) (n : nat) : results (rounds bin_cmd n) = [].
Proof. induction n; simpl; auto. Qed.

Section Server.

Variable cc : ControlCode.
Variable drive_stats : DriveVelocity.
Variable env : Env.

(** *** The wait for the digging task *)

(** When the task is seen done at some look, the wait comes to an end, by
    then at the latest; it sends no goal and sets at most the result
    Preempted. *)
Lemma dig_wait_terminates (k : nat) :
  forall fuel w,
    (k < fuel)%nat ->
    isDone env (done_calls w + k) = true ->
    exists f w',
      dig_wait env fuel w = Some (f, w') /\
      goals_sent (trace w') = goals_sent (trace w) /\
      (f = Break /\ results (trace w') = results (trace w) \/
       f = Return /\ results (trace w') = results (trace w) ++ [Preempted]).
Proof.
  induction k as [|k IH]; intros fuel w Hf Hd;
    (destruct fuel as [|fuel]; [lia|]);
    cbn [dig_wait]; unfold Prog.bind, digging_client_isDone.
  - rewrite Nat.add_0_r in Hd. rewrite Hd. cbn.
    eexists _, _. split; [reflexivity|]. cbn. auto.
  - destruct (isDone env (done_calls w)) eqn:Hnow; cbn.
    + eexists _, _. split; [reflexivity|]. cbn. auto.
    + unfold preempt_or_shutdown, Prog.bind, server_isPreemptRequested, ros_ok.
      destruct (isPreemptRequested env (preempt_calls w)) eqn:Hp; cbn.
      * eexists _, _. split; [reflexivity|]. cbn.
        rewrite <- !app_assoc, goals_sent_app, results_app. cbn.
        rewrite app_nil_r. auto.
      * destruct (ok env (ok_calls w)) eqn:Ho; cbn.
        -- match goal with |- context [dig_wait env fuel ?w1] =>
             destruct (IH fuel w1) as (f & w' & E & G & R)
           end; [lia | cbn; now rewrite Nat.add_succ_r in Hd |].
           exists f, w'. split; [exact E|].
           cbn in G, R. rewrite goals_sent_app, app_nil_r in G.
           rewrite results_app, app_nil_r in R. auto.
        -- eexists _, _. split; [reflexivity|]. cbn.
           rewrite <- !app_assoc, goals_sent_app, results_app. cbn.
           rewrite app_nil_r. auto.
Qed.

(** When preemption is requested at a poll before which the task was never
    seen done, the wait ends at that poll or at an earlier one with the
    goals cancelled and the result Preempted. *)
Lemma dig_wait_preempted (j : nat) :
  forall fuel w,
    (j < fuel)%nat ->
    (forall i, (i <= j)%nat -> isDone env (done_calls w + i) = false) ->
    isPreemptRequested env (preempt_calls w + j) = true ->
    exists w' n,
      dig_wait env fuel w = Some (Return, w') /\ (n <= j)%nat /\
      trace w' = trace w ++ repeat Sleep n ++ [CancelAllGoals; SetResult Preempted].
Proof.
  induction j as [|j IH]; intros fuel w Hf Hd Hp;
    (destruct fuel as [|fuel]; [lia|]);
    cbn [dig_wait]; unfold Prog.bind, digging_client_isDone;
    (assert (H0 := Hd 0%nat (Nat.le_0_l _)); rewrite Nat.add_0_r in H0; rewrite H0); cbn;
    unfold preempt_or_shutdown, Prog.bind, server_isPreemptRequested, ros_ok.
  - rewrite Nat.add_0_r in Hp. rewrite Hp. cbn.
    eexists _, 0%nat. split; [reflexivity|]. split; [lia|].
    cbn. now rewrite <- app_assoc.
  - destruct (isPreemptRequested env (preempt_calls w)) eqn:Hnow; cbn.
    + eexists _, 0%nat. split; [reflexivity|]. split; [lia|].
      cbn. now rewrite <- app_assoc.
    + destruct (ok env (ok_calls w)) eqn:Ho; cbn.
      * match goal with |- context [dig_wait env fuel ?w1] =>
          destruct (IH fuel w1) as (w' & n & E & Hn & T)
        end.
        -- lia.
        -- intros i Hi. cbn. rewrite <- Nat.add_succ_r. apply Hd. lia.
        -- cbn. now rewrite Nat.add_succ_r in Hp.
        -- exists w', (S n). split; [exact E|]. split; [lia|].
           rewrite T. cbn. now rewrite <- app_assoc.
      * eexists _, 0%nat. split; [reflexivity|]. split; [lia|].
        cbn. now rewrite <- app_assoc.
Qed.

(** *** The wait for the bin *)

Lemma call_bin_state_answered (query : CodeSrv) (w : World) :
  exists b,
    call_bin_state env query w =
    Some ((b, answered query (bin_state env (bin_calls w))),
          mkWorld (preempt_calls w) (ok_calls w) (S (bin_calls w)) (done_calls w)
                  (trace w ++ [CallBinState])).
Proof.
  unfold call_bin_state, answered.
  destruct (bin_state env (bin_calls w)); eexists; reflexivity.
Qed.

Lemma polled_last (srv : CodeSrv) (n : nat) :
  forall first,
    polled env srv first (S n) =
    answered (polled env srv first n) (bin_state env (first + n)).
Proof.
  revert srv. induction n as [|n IH]; intros srv first.
  - cbn. now rewrite Nat.add_0_r.
  - change (polled env srv first (S (S n)))
      with (polled env (answered srv (bin_state env first)) (S first) (S n)).
    rewrite IH. cbn [polled]. now rewrite Nat.add_succ_r.
Qed.

(** The loop leaves at the first poll after which [query] holds the target,
    when neither preemption nor shutdown is seen up to that poll. *)
Lemma bin_wait_matches (target : Z) (bin_cmd : Q) (j : nat) :
  forall fuel w query,
    (j < fuel)%nat ->
    (forall i, (i <= j)%nat ->
       isPreemptRequested env (preempt_calls w + i) = false /\
       ok env (ok_calls w + i) = true) ->
    (forall i, (i < j)%nat -> code (polled env query (bin_calls w) (S i)) <> target) ->
    code (polled env query (bin_calls w) (S j)) = target ->
    exists w',
      bin_wait env target bin_cmd fuel query w =
        Some (polled env query (bin_calls w) (S j), w') /\
      trace w' = trace w ++ rounds bin_cmd j ++ [CallBinState] /\
      preempt_calls w' = (preempt_calls w + S j)%nat.
Proof.
  induction j as [|j IH]; intros fuel w query Hf Hrun Hno Hyes;
    (destruct fuel as [|fuel]; [lia|]);
    cbn [bin_wait]; unfold Prog.bind at 1, running, Prog.bind,
      server_isPreemptRequested, ros_ok;
    destruct (Hrun 0%nat (Nat.le_0_l _)) as [Hp Ho];
    rewrite Nat.add_0_r in Hp, Ho; rewrite Hp; cbn; rewrite Ho;
    match goal with |- context [call_bin_state env query ?w1] =>
      destruct (call_bin_state_answered query w1) as [b ->]
    end; cbn [snd bin_calls].
  - cbn in Hyes. rewrite (proj2 (Z.eqb_eq _ _) Hyes).
    eexists. split; [reflexivity|]. cbn. split; [reflexivity|]. lia.
  - assert (Hfirst := Hno 0%nat (Nat.lt_0_succ _)). cbn in Hfirst.
    rewrite (proj2 (Z.eqb_neq _ _) Hfirst).
    cbn.
    match goal with |- context [bin_wait env target bin_cmd fuel ?q1 ?w1] =>
      destruct (IH fuel w1 q1) as (w' & E & T & P)
    end.
    + lia.
    + intros i Hi. cbn. rewrite <- !Nat.add_succ_r. apply Hrun. lia.
    + intros i Hi. cbn [bin_calls]. apply (Hno (S i)). lia.
    + exact Hyes.
    + exists w'. cbn [bin_calls] in E. split; [exact E|].
      rewrite T, P. cbn. rewrite <- !app_assoc. split; [reflexivity|lia].
Qed.

(** However the loop is left, it is after a poll that put the target in
    [query], or at a check that saw preemption or shutdown. *)
Lemma bin_wait_exit (target : Z) (bin_cmd : Q) (fuel : nat) :
  forall w query q' w',
    bin_wait env target bin_cmd fuel query w = Some (q', w') ->
    exists n,
      preempt_calls w' = (preempt_calls w + S n)%nat /\
      (code (polled env query (bin_calls w) (S n)) = target /\
       trace w' = trace w ++ rounds bin_cmd n ++ [CallBinState]
       \/
       (isPreemptRequested env (preempt_calls w + n) = true \/
        exists m, ok env m = false) /\
       trace w' = trace w ++ rounds bin_cmd n).
Proof.
  induction fuel as [|fuel IH]; intros w query q' w' E; [discriminate|].
  cbn [bin_wait] in E.
  unfold Prog.bind at 1, running, Prog.bind, server_isPreemptRequested, ros_ok in E.
  destruct (isPreemptRequested env (preempt_calls w)) eqn:Hp; cbn in E.
  { injection E as <- <-. exists 0%nat. cbn. split; [lia|]. right.
    rewrite Nat.add_0_r, app_nil_r. auto. }
  destruct (ok env (ok_calls w)) eqn:Ho.
  2:{ injection E as <- <-. exists 0%nat. cbn. split; [lia|]. right.
      rewrite app_nil_r. split; [right; eauto | reflexivity]. }
  match type of E with context [call_bin_state env query ?w1] =>
    destruct (call_bin_state_answered query w1) as [b Hb]; rewrite Hb in E
  end.
  cbn [snd bin_calls] in E.
  destruct (code (answered query (bin_state env (bin_calls w))) =? target) eqn:Hc.
  - injection E as <- <-. exists 0%nat. cbn. split; [lia|]. left.
    split; [now apply Z.eqb_eq | reflexivity].
  - cbn in E.
    apply IH in E. destruct E as (n & P & H). exists (S n).
    cbn in P, H. split; [lia|].
    destruct H as [[Hy T] | [Hstop T]].
    + left. split; [exact Hy|]. rewrite T. cbn. now rewrite <- !app_assoc.
    + right. split.
      * destruct Hstop as [Hq | Hm]; [left | right; exact Hm].
        now rewrite Nat.add_succ_r.
      * rewrite T. cbn. now rewrite <- !app_assoc.
Qed.

(** A poll that fails leaves in [query] what it held, so the loop does what
    it would do had the poll answered that code. *)
Lemma bin_wait_stale (target : Z) (bin_cmd : Q) (k : nat) (held : CodeSrv) (fuel : nat) :
  bin_state env k = None ->
  forall w query,
    ((bin_calls w <= k)%nat -> polled env query (bin_calls w) (k - bin_calls w) = held) ->
    bin_wait env target bin_cmd fuel query w =
    bin_wait (with_bin_state env k (Some (code held))) target bin_cmd fuel query w.
Proof.
  intros Hk. induction fuel as [|fuel IH]; intros w query Hinv; [reflexivity|].
  cbn [bin_wait].
  unfold Prog.bind at 1 3, running, Prog.bind, server_isPreemptRequested, ros_ok.
  cbn [with_bin_state isPreemptRequested ok].
  destruct (isPreemptRequested env (preempt_calls w)); cbn; [reflexivity|].
  destruct (ok env (ok_calls w)); [|reflexivity].
  unfold call_bin_state. cbn [with_bin_state bin_state bin_calls preempt_calls
                                ok_calls done_calls trace].
  destruct (Nat.eqb_spec (bin_calls w) k) as [Heq | Hne].
  - rewrite Heq, Hk. rewrite Heq, Nat.sub_diag in Hinv. cbn in Hinv.
    specialize (Hinv (Nat.le_refl _)). subst query.
    assert (Heta : mkCodeSrv (code held) = held) by now destruct held.
    cbn [snd]. rewrite Heta.
    destruct (code held =? target); [reflexivity|].
    cbn. apply IH. cbn. intros Hle. lia.
  - destruct (bin_state env (bin_calls w)) as [c|] eqn:Hb; cbn;
      match goal with |- context [?x =? target] =>
        destruct (x =? target); [reflexivity|]
      end;
      apply IH; cbn; intros Hle;
      (assert (Hlt : (bin_calls w <= k)%nat) by lia);
      specialize (Hinv Hlt);
      (replace (k - bin_calls w)%nat with (S (k - S (bin_calls w))) in Hinv by lia);
      cbn [polled] in Hinv; rewrite Hb in Hinv; exact Hinv.
Qed.

(** The code that the response holds before poll [k], as the answers of
    the service give it. *)
Lemma held_before_polled (k : nat) :
  forall v, held_before env k v -> code (polled env CodeSrv_default 0 k) = v.
Proof.
  induction k as [|k IH]; intros v H.
  - destruct H as [[-> _] | (j & Hj & _)]; [reflexivity | lia].
  - rewrite polled_last, Nat.add_0_l.
    destruct (bin_state env k) as [c|] eqn:Hk; cbn [answered].
    + destruct H as [[_ Hnone] | (j & Hj & Hv & Hnone)].
      * rewrite Hnone in Hk by lia. discriminate.
      * destruct (Nat.eq_dec j k) as [-> | Hne]; [cbn; congruence|].
        rewrite Hnone in Hk by lia. discriminate.
    + apply IH. destruct H as [[-> Hnone] | (j & Hj & Hv & Hnone)].
      * left. split; [reflexivity|]. intros i Hi. apply Hnone. lia.
      * right. exists j. assert (j <> k) by congruence.
        split; [lia|]. split; [exact Hv|]. intros i Hi. apply Hnone. lia.
Qed.

(** As long as no poll puts the target in [query] and nothing stops the
    loop, it goes through its rounds: if it ends at all, it is after more
    iterations than these rounds, and its trace starts with them. *)
Lemma bin_wait_rounds (target : Z) (bin_cmd : Q) (n : nat) :
  forall fuel w query,
    (forall i, (i < n)%nat ->
       isPreemptRequested env (preempt_calls w + i) = false /\
       ok env (ok_calls w + i) = true) ->
    (forall i, (i < n)%nat -> code (polled env query (bin_calls w) (S i)) <> target) ->
    match bin_wait env target bin_cmd fuel query w with
    | None => True
    | Some (_, w') =>
        (n < fuel)%nat /\ exists rest, trace w' = trace w ++ rounds bin_cmd n ++ rest
    end.
Proof.
  induction n as [|n IH]; intros fuel w query Hrun Hno.
  - destruct (bin_wait env target bin_cmd fuel query w) as [[q' w']|] eqn:E; [|exact I].
    split; [destruct fuel; [discriminate E | lia]|].
    apply bin_wait_exit in E. destruct E as (m & _ & [[_ T] | [_ T]]);
      rewrite T; eexists; reflexivity.
  - destruct fuel as [|fuel]; [exact I|].
    cbn [bin_wait]. unfold Prog.bind at 1, running, Prog.bind,
      server_isPreemptRequested, ros_ok.
    destruct (Hrun 0%nat (Nat.lt_0_succ _)) as [Hp Ho].
    rewrite Nat.add_0_r in Hp, Ho. rewrite Hp. cbn. rewrite Ho.
    match goal with |- context [call_bin_state env query ?w1] =>
      destruct (call_bin_state_answered query w1) as [b ->]
    end; cbn [snd bin_calls].
    assert (Hfirst := Hno 0%nat (Nat.lt_0_succ _)). cbn in Hfirst.
    rewrite (proj2 (Z.eqb_neq _ _) Hfirst). cbn.
    match goal with |- context [bin_wait env target bin_cmd fuel ?q1 ?w1] =>
      assert (H := IH fuel w1 q1);
      destruct (bin_wait env target bin_cmd fuel q1 w1) as [[q' w']|]; [|exact I]
    end.
    destruct H as (Hf & rest & T).
    + intros i Hi. cbn. rewrite <- !Nat.add_succ_r. apply Hrun. lia.
    + intros i Hi. cbn [bin_calls]. apply (Hno (S i)). lia.
    + split; [lia|]. exists rest. rewrite T. cbn. rewrite <- !app_assoc. reflexivity.
Qed.

(** *** A cycle of DUMP or RESET_DUMPING *)

Lemma run_bin_command (c : TeleopCode) (target : Z) (bin_cmd : Q) (fuel : nat) :
  bin_target cc c = Some (target, bin_cmd) ->
  run cc drive_stats env fuel c =
  Prog.exec (Prog.bind (move_bin env target bin_cmd fuel Twist.zero) finish) init.
Proof.
  destruct c; try discriminate; intros [= <- <-]; reflexivity.
Qed.

Lemma move_bin_matches (target : Z) (bin_cmd : Q) (j fuel : nat) (w : World) :
  (j < fuel)%nat ->
  (forall i, (i <= j)%nat ->
     isPreemptRequested env (preempt_calls w + i) = false /\
     ok env (ok_calls w + i) = true) ->
  (forall i, (i < j)%nat ->
     code (polled env CodeSrv_default (bin_calls w) (S i)) <> target) ->
  code (polled env CodeSrv_default (bin_calls w) (S j)) = target ->
  exists w',
    Prog.exec (Prog.bind (move_bin env target bin_cmd fuel Twist.zero) finish) w = Some w' /\
    trace w' =
      trace w ++ [PublishDrive Twist.zero] ++ rounds bin_cmd j ++
      [CallBinState;
       SetResult (if isPreemptRequested env (preempt_calls w + S j)
                  then Preempted else Succeeded)].
Proof.
  intros Hf Hrun Hno Hyes.
  unfold Prog.exec, move_bin, Prog.bind. unfold emit at 1.
  match goal with |- context [bin_wait env target bin_cmd fuel ?q ?w1] =>
    destruct (bin_wait_matches target bin_cmd j fuel w1 q Hf) as (w' & E & T & P);
      [exact Hrun | exact Hno | exact Hyes | rewrite E]
  end.
  unfold server_isPreemptRequested. cbn beta. rewrite P. cbn [preempt_calls] in *.
  destruct (isPreemptRequested env (preempt_calls w + S j)); cbn;
    eexists; (split; [reflexivity|]); cbn; rewrite T; cbn;
    rewrite <- !app_assoc; reflexivity.
Qed.

Lemma move_bin_exit (target : Z) (bin_cmd : Q) (fuel : nat) (w w' : World) :
  (forall i, ok env i = true) ->
  Prog.exec (Prog.bind (move_bin env target bin_cmd fuel Twist.zero) finish) w = Some w' ->
  exists n,
    let o := if isPreemptRequested env (preempt_calls w + S n)
             then Preempted else Succeeded in
    code (polled env CodeSrv_default (bin_calls w) (S n)) = target /\
    trace w' =
      trace w ++ [PublishDrive Twist.zero] ++ rounds bin_cmd n ++
      [CallBinState; SetResult o]
    \/
    isPreemptRequested env (preempt_calls w + n) = true /\
    trace w' =
      trace w ++ [PublishDrive Twist.zero] ++ rounds bin_cmd n ++
      [SetResult o].
Proof.
  intros Hok. unfold Prog.exec, move_bin, Prog.bind. unfold emit at 1.
  match goal with |- context [bin_wait env target bin_cmd fuel ?q ?w1] =>
    destruct (bin_wait env target bin_cmd fuel q w1) as [[q' w2]|] eqn:E;
      [apply bin_wait_exit in E | discriminate]
  end.
  destruct E as (n & P & H). cbn [preempt_calls bin_calls trace] in P, H.
  unfold server_isPreemptRequested. cbn beta. rewrite P.
  assert (Hstop : forall A : Prop,
            (isPreemptRequested env (preempt_calls w + n) = true \/
             exists m, ok env m = false) /\ A ->
            isPreemptRequested env (preempt_calls w + n) = true /\ A).
  { intros A [[Hq | [m Hm]] HA]; [auto|]. rewrite Hok in Hm. discriminate. }
  intros E.
  destruct H as [[Hy T] | H]; [|apply Hstop in H; destruct H as [Hq T]];
    destruct (isPreemptRequested env (preempt_calls w + S n)) eqn:Hafter;
    cbn in E; injection E as <-; exists n; cbv zeta; rewrite Hafter;
    cbn [trace]; rewrite T, <- !app_assoc; [left | left | right | right];
    (split; [assumption | reflexivity]).
Qed.

Lemma results_bin_cycle (bin_cmd : Q) (n : nat) (tail : list Event) :
  results ([PublishDrive Twist.zero] ++ rounds bin_cmd n ++ tail) = results tail.
Proof. rewrite !results_app, results_rounds. reflexivity. Qed.

(** *** The commands *)

(** What the seven cases of the immediate drive commands publish, as they
    are written: each publishes exactly one velocity message built from the
    drive velocity profile and the cycle ends Succeeded, whatever the rest
    of the robot answers.  STOP_DRIVEBASE publishes all zeros; FORWARD and
    BACKWARD set linear.x to plus and minus the maximal linear velocity;
    LEFT and RIGHT set angular.z to plus and minus the maximal angular
    velocity.  The cases CLOCKWISE and COUNTERCLOCKWISE have the bodies of
    LEFT and RIGHT, in this order. *)
Theorem immediate_drive_commands (fuel : nat) :
  let linear v := Twist.mk (Vector3.mk v 0 0) Vector3.zero in
  let angular v := Twist.mk Vector3.zero (Vector3.mk 0 0 v) in
  let published c m :=
    option_map trace (run cc drive_stats env fuel c)
    = Some [PublishDrive m; SetResult Succeeded] in
  published STOP_DRIVEBASE Twist.zero /\
  published FORWARD (linear (getLinear drive_stats)) /\
  published BACKWARD (linear (- getLinear drive_stats)%Q) /\
  published LEFT (angular (getAngular drive_stats)) /\
  published RIGHT (angular (- getAngular drive_stats)%Q) /\
  published CLOCKWISE (angular (getAngular drive_stats)) /\
  published COUNTERCLOCKWISE (angular (- getAngular drive_stats)%Q).
Proof.
  cbv zeta. repeat split; reflexivity.
Qed.

(** C1 (amended).  The Dig command does not look at the flag of the
    duration lookup: as soon as the digging task is seen done at some look,
    the cycle ends, having sent exactly one digging goal, which carries the
    duration the lookup answered, or the zero duration when the lookup
    failed; it ends Succeeded or Preempted, never Aborted. *)
Theorem dig_sends_goal_whatever_the_lookup (n : nat) :
  isDone env n = true ->
  exists w,
    run cc drive_stats env (S n) DIG = Some w /\
    goals_sent (trace w) =
      [mkDiggingGoal match digging_time env with
                     | Some d => d
                     | None => Duration.zero
                     end] /\
    (results (trace w) = [Succeeded] \/ results (trace w) = [Preempted]).
Proof.
  intros Hd.
  unfold run, Prog.exec, processCommand. cbn [dispatch].
  unfold Prog.bind, call_digging_time, Prog.bind, emit.
  assert (Hgoal : forall d w1,
    trace w1 = [CallDiggingTime; SendGoal (mkDiggingGoal d)] ->
    done_calls w1 = 0%nat ->
    exists w,
      match
        match dig_wait env (S n) w1 with
        | Some (f, w') => finish f w'
        | None => None
        end
      with
      | Some (_, w') => Some w'
      | None => None
      end = Some w /\
      goals_sent (trace w) = [mkDiggingGoal d] /\
      (results (trace w) = [Succeeded] \/ results (trace w) = [Preempted])).
  { intros d w1 T D.
    destruct (dig_wait_terminates n (S n) w1) as (f & w' & E & G & R);
      [lia | now rewrite D | rewrite E].
    rewrite T in G, R. cbn in G, R.
    destruct R as [[-> R] | [-> R]]; cbn; eexists; (split; [reflexivity|]); cbn.
    - rewrite goals_sent_app, results_app, G, R. cbn. auto.
    - rewrite G, R. auto. }
  destruct (digging_time env) as [d|]; cbn -[dig_wait]; now apply Hgoal.
Qed.

(** C4.  In a Dig cycle, when preemption is requested at a poll and the
    digging task was not seen done at any look up to that poll, the server
    cancels the goals of the digging task and sets the result Preempted, at
    that poll or at an earlier one; the result is never Succeeded. *)
Theorem dig_preemption_cancels (j fuel : nat) :
  (j < fuel)%nat ->
  (forall i, (i <= j)%nat -> isDone env i = false) ->
  isPreemptRequested env j = true ->
  exists w n,
    run cc drive_stats env fuel DIG = Some w /\ (n <= j)%nat /\
    trace w =
      [CallDiggingTime;
       SendGoal (mkDiggingGoal match digging_time env with
                               | Some d => d
                               | None => Duration.zero
                               end)]
      ++ repeat Sleep n ++ [CancelAllGoals; SetResult Preempted] /\
    cancels (trace w) = 1%nat /\
    results (trace w) = [Preempted].
Proof.
  intros Hf Hd Hp.
  unfold run, Prog.exec, processCommand. cbn [dispatch].
  unfold Prog.bind, call_digging_time, Prog.bind, emit.
  assert (Hwait : forall d w1,
    trace w1 = [CallDiggingTime; SendGoal (mkDiggingGoal d)] ->
    done_calls w1 = 0%nat -> preempt_calls w1 = 0%nat ->
    exists w n,
      match
        match dig_wait env fuel w1 with
        | Some (f, w') => finish f w'
        | None => None
        end
      with
      | Some (_, w') => Some w'
      | None => None
      end = Some w /\ (n <= j)%nat /\
      trace w = [CallDiggingTime; SendGoal (mkDiggingGoal d)]
                ++ repeat Sleep n ++ [CancelAllGoals; SetResult Preempted] /\
      cancels (trace w) = 1%nat /\
      results (trace w) = [Preempted]).
  { intros d w1 T D P.
    destruct (dig_wait_preempted j fuel w1) as (w' & n & E & Hn & T');
      [exact Hf | intros i Hi; rewrite D; now apply Hd | now rewrite P | rewrite E].
    cbn. exists w', n. rewrite T', T.
    repeat split; [exact Hn | |].
    - rewrite !cancels_app, cancels_sleeps. reflexivity.
    - rewrite !results_app, results_sleeps. reflexivity. }
  destruct (digging_time env) as [d|]; cbn -[dig_wait]; now apply Hwait.
Qed.

(** C2 (amended).  Take a DUMP cycle (target RAISED, position BIN_MAX) or
    a RESET_DUMPING cycle (target LOWERED, position BIN_MIN) in which the
    node is not shut down.
    - When the response code compared after poll [j] is the target for the
      first time and no loop check up to that poll sees a preemption
      request, the cycle ends right after that poll, without any further
      bin command: Succeeded, unless the check that follows the loop sees a
      preemption request, and then Preempted.
    - A cycle that ends Succeeded has either compared the target after
      its last poll and published no bin command after that poll, or left
      the loop at a check that saw a preemption request which the check
      that follows the loop did not see any more.
    - A cycle that ends does so with exactly one result, Succeeded or
      Preempted. *)
Theorem bin_cycle_succeeds_on_target
    (c : TeleopCode) (target : Z) (bin_cmd : Q) :
  bin_target cc c = Some (target, bin_cmd) ->
  (forall i, ok env i = true) ->
  (forall j fuel,
     (j < fuel)%nat ->
     (forall i, (i < j)%nat -> compared env i <> target) ->
     compared env j = target ->
     (forall i, (i <= j)%nat -> isPreemptRequested env i = false) ->
     exists w,
       run cc drive_stats env fuel c = Some w /\
       trace w =
         [PublishDrive Twist.zero] ++ rounds bin_cmd j ++
         [CallBinState;
          SetResult (if isPreemptRequested env (S j) then Preempted else Succeeded)])
  /\
  (forall fuel w,
     run cc drive_stats env fuel c = Some w ->
     results (trace w) = [Succeeded] ->
     exists j,
       isPreemptRequested env (S j) = false /\
       (compared env j = target /\
        trace w =
          [PublishDrive Twist.zero] ++ rounds bin_cmd j ++
          [CallBinState; SetResult Succeeded]
        \/
        isPreemptRequested env j = true /\
        trace w =
          [PublishDrive Twist.zero] ++ rounds bin_cmd j ++ [SetResult Succeeded]))
  /\
  (forall fuel w,
     run cc drive_stats env fuel c = Some w ->
     results (trace w) = [Succeeded] \/ results (trace w) = [Preempted]).
Proof.
  intros Hc Hok. repeat split.
  - intros j fuel Hf Hno Hyes Hp.
    rewrite (run_bin_command c target bin_cmd fuel Hc).
    destruct (move_bin_matches target bin_cmd j fuel init Hf) as (w & E & T).
    + intros i Hi. cbn. auto.
    + exact Hno.
    + exact Hyes.
    + exists w. split; [exact E|]. exact T.
  - intros fuel w E R.
    rewrite (run_bin_command c target bin_cmd fuel Hc) in E.
    apply (move_bin_exit target bin_cmd fuel init w Hok) in E.
    destruct E as (n & H). cbn [init preempt_calls bin_calls trace app Nat.add] in H.
    exists n.
    destruct (isPreemptRequested env (S n)) eqn:Hq.
    + exfalso. destruct H as [[_ T] | [_ T]]; rewrite T in R;
        change (?a :: rounds bin_cmd n ++ ?t) with ([a] ++ rounds bin_cmd n ++ t) in R;
        rewrite results_bin_cycle in R; discriminate R.
    + split; [reflexivity|]. exact H.
  - intros fuel w E.
    rewrite (run_bin_command c target bin_cmd fuel Hc) in E.
    apply (move_bin_exit target bin_cmd fuel init w Hok) in E.
    destruct E as (n & H). cbn [init preempt_calls bin_calls trace app Nat.add] in H.
    destruct (isPreemptRequested env (S n));
      destruct H as [[_ T] | [_ T]]; rewrite T;
      change (?a :: rounds bin_cmd n ++ ?t) with ([a] ++ rounds bin_cmd n ++ t);
      rewrite results_bin_cycle; cbn; auto.
Qed.

(** C10.  In a DUMP or RESET_DUMPING cycle the flag that the "bin_state"
    call returns is not looked at.  Let poll number [k] fail in a cycle
    that reaches it (no preemption request and no shutdown is seen up to
    it, and no poll before it left the target in the response), and let
    [held] be the code that the response holds then: the code that the
    latest poll to succeed before [k] answered, or 0, the code of the
    default-constructed response, when none did.  Then:
    - the code compared after poll [k] is [held];
    - when [held] is the target, the loop is left right after the failed
      poll and the cycle ends as after a poll that answered the target:
      Succeeded, unless the check after the loop sees a preemption request;
    - when [held] is not the target, the loop publishes the bin command
      and goes into its next round, as after a poll that answered another
      code;
    - the whole cycle is the same as when poll [k] succeeds and answers
      [held]. *)
Theorem failed_poll_compares_stale_code
    (c : TeleopCode) (target : Z) (bin_cmd : Q) (k : nat) (held : Z) :
  bin_target cc c = Some (target, bin_cmd) ->
  bin_state env k = None ->
  held_before env k held ->
  (forall i, (i <= k)%nat -> isPreemptRequested env i = false /\ ok env i = true) ->
  (forall i, (i < k)%nat -> compared env i <> target) ->
  compared env k = held /\
  (held = target ->
   forall fuel, (k < fuel)%nat ->
   exists w,
     run cc drive_stats env fuel c = Some w /\
     trace w =
       [PublishDrive Twist.zero] ++ rounds bin_cmd k ++
       [CallBinState;
        SetResult (if isPreemptRequested env (S k) then Preempted else Succeeded)]) /\
  (held <> target ->
   run cc drive_stats env (S k) c = None /\
   forall fuel w,
     run cc drive_stats env fuel c = Some w ->
     exists rest,
       trace w = [PublishDrive Twist.zero] ++ rounds bin_cmd (S k) ++ rest) /\
  (forall fuel,
     run cc drive_stats env fuel c =
     run cc drive_stats (with_bin_state env k (Some held)) fuel c).
Proof.
  intros Hc Hk Hheld Hrun Hno.
  apply held_before_polled in Hheld.
  assert (Hcmp : compared env k = held).
  { unfold compared. rewrite polled_last, Nat.add_0_l, Hk. exact Hheld. }
  split; [exact Hcmp|]. split; [|split].
  - intros Hyes fuel Hf.
    rewrite (run_bin_command c target bin_cmd fuel Hc).
    destruct (move_bin_matches target bin_cmd k fuel init Hf) as (w & E & T).
    + intros i Hi. cbn. now apply Hrun.
    + exact Hno.
    + rewrite <- Hyes. exact Hcmp.
    + exists w. split; [exact E | exact T].
  - intros Hne.
    assert (Hrun' : forall i, (i < S k)%nat ->
              isPreemptRequested env i = false /\ ok env i = true)
      by (intros i Hi; apply Hrun; lia).
    assert (Hno' : forall i, (i < S k)%nat -> compared env i <> target).
    { intros i Hi. destruct (Nat.eq_dec i k) as [-> | Hik].
      - now rewrite Hcmp.
      - apply Hno. lia. }
    assert (Hwait : forall fuel,
              match bin_wait env target bin_cmd fuel CodeSrv_default
                      (mkWorld 0 0 0 0 [PublishDrive Twist.zero]) with
              | None => True
              | Some (_, w') =>
                  (S k < fuel)%nat /\
                  exists rest,
                    trace w' = [PublishDrive Twist.zero] ++ rounds bin_cmd (S k) ++ rest
              end).
    { intros fuel. apply (bin_wait_rounds target bin_cmd (S k)).
      - intros i Hi. cbn. now apply Hrun'.
      - intros i Hi. exact (Hno' i Hi). }
    split.
    + rewrite (run_bin_command c target bin_cmd (S k) Hc).
      unfold Prog.exec, move_bin, Prog.bind. unfold emit at 1. cbn [init trace app
        preempt_calls ok_calls bin_calls done_calls].
      specialize (Hwait (S k)).
      destruct (bin_wait env target bin_cmd (S k) _ _) as [[q' w']|]; [|reflexivity].
      destruct Hwait as [Hlt _]. lia.
    + intros fuel w E.
      rewrite (run_bin_command c target bin_cmd fuel Hc) in E.
      unfold Prog.exec, move_bin, Prog.bind in E. unfold emit at 1 in E.
      cbn [init trace app preempt_calls ok_calls bin_calls done_calls] in E.
      specialize (Hwait fuel).
      destruct (bin_wait env target bin_cmd fuel _ _) as [[q' w']|]; [|discriminate E].
      destruct Hwait as (_ & rest & T).
      unfold server_isPreemptRequested in E. cbn beta in E.
      destruct (isPreemptRequested env (preempt_calls w')); cbn in E;
        injection E as <-; cbn [trace]; rewrite T, <- !app_assoc;
        eexists; reflexivity.
  - intros fuel.
    assert (Hwait : forall tg bc w,
      bin_calls w = 0%nat ->
      move_bin env tg bc fuel Twist.zero w =
      move_bin (with_bin_state env k (Some held)) tg bc fuel Twist.zero w).
    { intros tg bc w Hw. unfold move_bin, Prog.bind. unfold emit at 1 3.
      rewrite <- Hheld.
      rewrite <- (bin_wait_stale tg bc k (polled env CodeSrv_default 0 k) fuel Hk).
      - reflexivity.
      - cbn. rewrite Hw, Nat.sub_0_r. reflexivity. }
    unfold run, Prog.exec, processCommand, Prog.bind.
    destruct c; try discriminate Hc; cbn [dispatch]; rewrite <- Hwait; reflexivity.
Qed.

End Server.

(** *** Examples *)

Import Examples.

(** C5.  The cases CLOCKWISE and COUNTERCLOCKWISE have the signs of their
    turn swapped.  With the default velocities, CLOCKWISE publishes
    angular.z = +0.1, which is the message of LEFT, a counter-clockwise
    turn, and not angular.z = -0.1, the message of RIGHT;
    COUNTERCLOCKWISE publishes angular.z = -0.1, which is the message of
    RIGHT, a clockwise turn, and not angular.z = +0.1, the message of
    LEFT. *)
Lemma clockwise_turns_as_left :
  let published c :=
    option_map trace (run control_code velocities lookup_fails 0 c) in
  let turn v :=
    Some [PublishDrive (Twist.mk Vector3.zero (Vector3.mk 0 0 v));
          SetResult Succeeded] in
  published LEFT = turn (1 # 10)%Q /\
  published RIGHT = turn (- (1 # 10))%Q /\
  published CLOCKWISE = published LEFT /\
  published CLOCKWISE <> turn (- (1 # 10))%Q /\
  published COUNTERCLOCKWISE = published RIGHT /\
  published COUNTERCLOCKWISE <> turn (1 # 10)%Q.
Proof.
  cbv zeta. repeat split; try reflexivity; discriminate.
Qed.

(** C1: when the duration lookup fails, the cycle does not end Aborted
    without a goal: a goal with the zero duration is sent and the cycle
    ends Succeeded. *)
Lemma dig_lookup_failure_is_not_aborted :
  ~ (digging_time lookup_fails = None ->
     forall w, run control_code velocities lookup_fails 1 DIG = Some w ->
               results (trace w) = [Aborted] /\ goals_sent (trace w) = []).
Proof.
  intros H. destruct (H eq_refl _ eq_refl) as [R _]. discriminate R.
Qed.

Lemma dig_sends_goal_whatever_the_lookup_witness :
  isDone lookup_fails 0 = true /\
  exists w,
    run control_code velocities lookup_fails 1 DIG = Some w /\
    goals_sent (trace w) = [mkDiggingGoal Duration.zero] /\
    (results (trace w) = [Succeeded] \/ results (trace w) = [Preempted]).
Proof.
  split; [reflexivity|].
  apply (dig_sends_goal_whatever_the_lookup control_code velocities lookup_fails 0).
  reflexivity.
Defined.

Lemma dig_preemption_cancels_witness :
  exists w n,
    run control_code velocities preempted_dig 5 DIG = Some w /\ (n <= 2)%nat /\
    trace w =
      [CallDiggingTime; SendGoal (mkDiggingGoal (Duration.mk 30 0))]
      ++ repeat Sleep n ++ [CancelAllGoals; SetResult Preempted] /\
    cancels (trace w) = 1%nat /\
    results (trace w) = [Preempted].
Proof.
  apply (dig_preemption_cancels control_code velocities preempted_dig 2 5).
  - lia.
  - reflexivity.
  - reflexivity.
Defined.

(** C2: the first poll of a DUMP cycle answers RAISED and the cycle ends
    Preempted, because preemption is requested before the check that
    follows the loop. *)
Lemma dump_target_reached_yet_preempted :
  ~ (forall w,
       run control_code velocities late_preempt 1 DUMP = Some w ->
       (results (trace w) = [Succeeded] <->
        exists k, (k < bin_calls w)%nat /\
                  bin_state late_preempt k = Some (RAISED control_code))).
Proof.
  intros H. specialize (H _ eq_refl). cbn in H.
  destruct H as [_ H].
  assert (R : [Preempted] = [Succeeded]).
  { apply H. exists 0%nat. split; [lia | reflexivity]. }
  discriminate R.
Qed.

Lemma bin_cycle_succeeds_on_target_witness :
  exists w,
    run control_code velocities bin_rises 3 DUMP = Some w /\
    trace w =
      [PublishDrive Twist.zero] ++ rounds (3 # 2) 2 ++
      [CallBinState; SetResult Succeeded].
Proof.
  assert (Hok : forall i, ok bin_rises i = true) by reflexivity.
  destruct (bin_cycle_succeeds_on_target control_code velocities bin_rises
              DUMP 1 (3 # 2) eq_refl Hok) as [Hfirst _].
  apply (Hfirst 2%nat 3%nat).
  - lia.
  - intros i Hi. destruct i as [|[|i]]; [discriminate | discriminate | lia].
  - reflexivity.
  - reflexivity.
Defined.

Lemma failed_poll_compares_stale_code_witness :
  compared first_poll_fails 0 = 0 /\
  (exists w,
     run control_code velocities first_poll_fails 1 RESET_DUMPING = Some w /\
     trace w = [PublishDrive Twist.zero; CallBinState; SetResult Succeeded]) /\
  run control_code velocities first_poll_fails 5 RESET_DUMPING =
  run control_code velocities (with_bin_state first_poll_fails 0 (Some 0)) 5 RESET_DUMPING.
Proof.
  destruct (failed_poll_compares_stale_code control_code velocities first_poll_fails
              RESET_DUMPING 0 0 0 0 eq_refl eq_refl)
    as (Hcode & Hends & _ & Hsame).
  - left. split; [reflexivity|]. intros i Hi. lia.
  - intros i Hi. split; reflexivity.
  - intros i Hi. lia.
  - split; [exact Hcode|]. split; [|exact (Hsame 5%nat)].
    apply (Hends eq_refl 1%nat). lia.
Defined.

End TeleopProps.

(** ** The localization action server *)
Module LocalizerProps.

Import Localizer.

Lemma results_of_app (a b : list Event) : results (a ++ b) = results a ++ results b.
Proof. apply flat_map_app. Qed.

Lemma commits_app (a b : list Event) : commits (a ++ b) = commits a ++ commits b.
Proof. apply flat_map_app. Qed.

(** Multiplying by the literal -1 gives the opposite, as a rational with
    the same denominator. *)
Lemma Qmult_minus_one (q : Q) : (q * -1)%Q = (- q)%Q.
Proof.
  destruct q as [n d]. unfold Qmult, Qopp. cbn [Qnum Qden].
  rewrite Pos.mul_1_r. f_equal. lia.
Qed.

Section Server.

Variable env : Env.

(** One iteration, case by case. *)
Lemma localize_body_spec (w : World) :
  exists w',
    localize_body env w = Some (step_of (attempt env w), w') /\
    results (trace w') = results (trace w) ++ result_of (attempt env w) /\
    commits (trace w') = commits (trace w) ++ commit_of (attempt env w).
Proof.
  unfold localize_body, attempt, Prog.bind, preempt_or_shutdown, Prog.bind,
    server_isPreemptRequested, ros_ok.
  destruct (isPreemptRequested env (preempt_calls w)); cbn.
  { eexists. split; [reflexivity|]. cbn. rewrite results_of_app, commits_app. auto. }
  destruct (ok env (ok_calls w)); cbn.
  2:{ eexists. split; [reflexivity|]. cbn. rewrite results_of_app, commits_app. auto. }
  destruct (image_client env (image_calls w)) as [response|]; cbn.
  2:{ eexists. split; [reflexivity|]. cbn. rewrite results_of_app, commits_app. auto. }
  destruct (aruco env (aruco_calls w) _) as [result|]; cbn.
  2:{ eexists. split; [reflexivity|]. cbn.
      rewrite !results_of_app, !commits_app. cbn. rewrite !app_nil_r. auto. }
  destruct (number_found result =? 0); cbn.
  { eexists. split; [reflexivity|]. cbn.
    rewrite !results_of_app, !commits_app. cbn. rewrite !app_nil_r. auto. }
  destruct (transform_pose env (transform_calls w) _ _) as [p|]; cbn.
  2:{ eexists. split; [reflexivity|]. cbn.
      rewrite !results_of_app, !commits_app. cbn. rewrite !app_nil_r. auto. }
  destruct (localize_bin env (commit_calls w) _); cbn.
  - eexists. split; [reflexivity|]. cbn.
    rewrite !results_of_app, !commits_app. cbn. rewrite !app_nil_r. auto.
  - eexists. split; [reflexivity|]. cbn.
    rewrite !results_of_app, !commits_app. cbn. rewrite !app_nil_r. auto.
Qed.

(** An iteration issues a commit call only after a detection with markers
    and a transform that succeeded, and the pose it sends is the
    transformed one after the correction. *)
Lemma attempt_commit (w : World) :
  commit_of (attempt env w) = [] \/
  exists response result tp,
    image_client env (image_calls w) = Some response /\
    aruco env (aruco_calls w) (mkArucoGoal (image response) (camera_info response))
      = Some result /\
    number_found result <> 0 /\
    transform_pose env (transform_calls w) (relative_pose result) "base_footprint"%string
      = Some tp /\
    commit_of (attempt env w) =
      [set_stamp (now env (now_calls w)) (set_frame_id "odom"%string (flip_z (flip_y tp)))].
Proof.
  unfold attempt.
  destruct (isPreemptRequested env (preempt_calls w) || negb (ok env (ok_calls w)));
    [now left|].
  destruct (image_client env (image_calls w)) as [response|]; [|now left].
  destruct (aruco env (aruco_calls w) _) as [result|] eqn:Ha; [|now left].
  destruct (number_found result =? 0) eqn:Hn; [now left|].
  destruct (transform_pose env (transform_calls w) _ _) as [tp|] eqn:Ht; [|now left].
  right. exists response, result, tp.
  apply Z.eqb_neq in Hn.
  repeat split; try assumption.
  cbv zeta. destruct (localize_bin env (commit_calls w) _); reflexivity.
Qed.

Lemma localize_step (fuel : nat) (w : World) :
  exists w1,
    localize_body env w = Some (step_of (attempt env w), w1) /\
    results (trace w1) = results (trace w) ++ result_of (attempt env w) /\
    commits (trace w1) = commits (trace w) ++ commit_of (attempt env w) /\
    localize env (S fuel) w =
      match step_of (attempt env w) with
      | Continue => localize env fuel w1
      | Leave => Some (tt, w1)
      end.
Proof.
  destruct (localize_body_spec w) as (w1 & E & R & C).
  exists w1. repeat split; try assumption.
  cbn [localize]. unfold Prog.bind. rewrite E.
  destruct (step_of (attempt env w)); reflexivity.
Qed.

Lemma transient_continues (a : Attempt) :
  transient a = true -> step_of a = Continue /\ result_of a = [].
Proof. destruct a; cbn; intros; try discriminate; auto. Qed.

Lemma leave_sets_result (a : Attempt) :
  step_of a = Leave -> result_of a = [Succeeded] \/ result_of a = [Preempted].
Proof. destruct a; cbn; intros; try discriminate; auto. Qed.

Lemma continue_sets_no_result (a : Attempt) :
  step_of a = Continue -> result_of a = [].
Proof. destruct a; cbn; intros; try discriminate; auto. Qed.

(** The loop, when it ends, has set one result, Succeeded or Preempted. *)
Lemma localize_ends (fuel : nat) :
  forall w w',
    Prog.exec (localize env fuel) w = Some w' ->
    results (trace w') = results (trace w) ++ [Succeeded] \/
    results (trace w') = results (trace w) ++ [Preempted].
Proof.
  induction fuel as [|fuel IH]; intros w w' E; [discriminate|].
  unfold Prog.exec in E.
  destruct (localize_step fuel w) as (w1 & _ & R & _ & L). rewrite L in E.
  destruct (step_of (attempt env w)) eqn:Hs.
  - apply continue_sets_no_result in Hs. rewrite Hs, app_nil_r in R.
    rewrite <- R. now apply IH.
  - injection E as <-. rewrite R.
    destruct (leave_sets_result _ Hs) as [-> | ->]; auto.
Qed.

Lemma after_iterations_localize (n : nat) :
  forall w0 w,
    after_iterations env n w0 = Some w ->
    results (trace w) = results (trace w0) /\
    forall fuel, localize env (n + fuel) w0 = localize env fuel w.
Proof.
  induction n as [|n IH]; intros w0 w E.
  - injection E as <-. auto.
  - cbn [after_iterations] in E.
    destruct (localize_step 0 w0) as (w1 & B & R & _ & _).
    rewrite B in E.
    destruct (step_of (attempt env w0)) eqn:Hs; [|discriminate].
    apply continue_sets_no_result in Hs. rewrite Hs, app_nil_r in R.
    destruct (IH w1 w E) as [R' L]. split; [congruence|].
    intros fuel. cbn [Nat.add localize]. unfold Prog.bind. rewrite B. apply L.
Qed.

(** C6.  The localization loop has no Aborted path and retries after
    every transient failure.
    - When an iteration meets a failed image call, an unreachable marker
      detector, zero markers, a failed transform or a failed commit, it
      sets no result and the loop goes on with the next iteration.
    - When the loop ends, it has set exactly one result, and this result
      is Succeeded or Preempted. *)
Theorem localize_retries_and_never_aborts :
  (forall w,
     transient (attempt env w) = true ->
     exists w1,
       localize_body env w = Some (Continue, w1) /\
       results (trace w1) = results (trace w) /\
       forall fuel, localize env (S fuel) w = localize env fuel w1)
  /\
  (forall fuel w,
     run env fuel = Some w ->
     results (trace w) = [Succeeded] \/ results (trace w) = [Preempted]).
Proof.
  split.
  - intros w Ht. apply transient_continues in Ht. destruct Ht as [Hs Hr].
    destruct (localize_step 0 w) as (w1 & B & R & _ & _).
    exists w1. rewrite Hs in B. rewrite Hr, app_nil_r in R.
    repeat split; try assumption.
    intros fuel. cbn [localize]. unfold Prog.bind. now rewrite B.
  - intros fuel w E. apply localize_ends in E. exact E.
Qed.

(** C7.  In every iteration of the localization loop, from any world: the
    iteration issues at most one commit call; it issues one only when the
    marker detection of that iteration reported a number of markers other
    than zero and the transform of the detected relative pose succeeded;
    and when the detection reports zero markers or the transform fails, no
    commit call is issued. *)
Theorem commit_needs_markers_and_transform (w : World) :
  exists s w',
    localize_body env w = Some (s, w') /\
    (commits (trace w') = commits (trace w) \/
     exists p, commits (trace w') = commits (trace w) ++ [p]) /\
    (commits (trace w') <> commits (trace w) ->
     exists response result tp,
       image_client env (image_calls w) = Some response /\
       aruco env (aruco_calls w) (mkArucoGoal (image response) (camera_info response))
         = Some result /\
       number_found result <> 0 /\
       transform_pose env (transform_calls w) (relative_pose result) "base_footprint"%string
         = Some tp) /\
    (forall response result,
       image_client env (image_calls w) = Some response ->
       aruco env (aruco_calls w) (mkArucoGoal (image response) (camera_info response))
         = Some result ->
       number_found result = 0 \/
       transform_pose env (transform_calls w) (relative_pose result) "base_footprint"%string
         = None ->
       commits (trace w') = commits (trace w)).
Proof.
  destruct (localize_body_spec w) as (w' & B & _ & C).
  exists (step_of (attempt env w)), w'. split; [exact B|].
  destruct (attempt_commit w) as [Hnone | (response & result & tp & Hi & Ha & Hn & Ht & Hc)].
  - rewrite Hnone, app_nil_r in C. repeat split; auto.
    intros Hneq. now elim Hneq.
  - rewrite Hc in C. repeat split.
    + right. eauto.
    + intros _. exists response, result, tp. auto.
    + intros response' result' Hi' Ha' Hfail.
      rewrite Hi in Hi'. injection Hi' as <-.
      rewrite Ha in Ha'. injection Ha' as <-.
      destruct Hfail as [Hz | Hf]; [contradiction | congruence].
Qed.

(** C8.  The pose of a commit call is the pose that the transform of the
    same iteration gave, with the y and z coordinates of its position
    negated, the frame "odom" and the current time as stamp; the x
    coordinate, the orientation and the sequence number are the ones of
    the transformed pose. *)
Theorem commit_pose_is_corrected (w : World) :
  exists s w',
    localize_body env w = Some (s, w') /\
    forall p,
      commits (trace w') = commits (trace w) ++ [p] ->
      exists response result tp,
        image_client env (image_calls w) = Some response /\
        aruco env (aruco_calls w) (mkArucoGoal (image response) (camera_info response))
          = Some result /\
        transform_pose env (transform_calls w) (relative_pose result) "base_footprint"%string
          = Some tp /\
        let from := Pose.position (PoseStamped.pose tp) in
        let to := Pose.position (PoseStamped.pose p) in
        Point.x to = Point.x from /\
        Point.y to = (- Point.y from)%Q /\
        Point.z to = (- Point.z from)%Q /\
        Pose.orientation (PoseStamped.pose p) = Pose.orientation (PoseStamped.pose tp) /\
        Header.frame_id (PoseStamped.header p) = "odom"%string /\
        Header.stamp (PoseStamped.header p) = now env (now_calls w) /\
        Header.seq (PoseStamped.header p) = Header.seq (PoseStamped.header tp).
Proof.
  destruct (localize_body_spec w) as (w' & B & _ & C).
  exists (step_of (attempt env w)), w'. split; [exact B|].
  intros p Hp. rewrite C in Hp. apply app_inv_head in Hp.
  destruct (attempt_commit w) as [Hnone | (response & result & tp & Hi & Ha & _ & Ht & Hc)].
  - rewrite Hnone in Hp. discriminate.
  - rewrite Hc in Hp. injection Hp as <-.
    exists response, result, tp. repeat split; try assumption; cbn.
    + apply Qmult_minus_one.
    + apply Qmult_minus_one.
Qed.

(** C3.  First, when the first two iterations detect zero markers and the
    third detects markers, has its transform succeed and its commit
    succeed (no preemption request, a running node, image calls that
    succeed and a marker detector that answers in these three iterations),
    the loop ends after the third iteration: it has issued exactly one
    commit call and set the result Succeeded.  Second, when preemption is
    requested at the top of an iteration, after any number of iterations
    that issued no commit call, the loop ends there with the result
    Preempted and without any commit call. *)
Theorem localize_third_attempt_and_preemption :
  (forall r0 r1 r2 a0 a1 a2 tp,
     (forall i, (i < 3)%nat -> isPreemptRequested env i = false /\ ok env i = true) ->
     image_client env 0 = Some r0 ->
     image_client env 1 = Some r1 ->
     image_client env 2 = Some r2 ->
     aruco env 0 (mkArucoGoal (image r0) (camera_info r0)) = Some a0 ->
     aruco env 1 (mkArucoGoal (image r1) (camera_info r1)) = Some a1 ->
     aruco env 2 (mkArucoGoal (image r2) (camera_info r2)) = Some a2 ->
     number_found a0 = 0 ->
     number_found a1 = 0 ->
     number_found a2 <> 0 ->
     transform_pose env 0 (relative_pose a2) "base_footprint"%string = Some tp ->
     let sent := set_stamp (now env 0) (set_frame_id "odom"%string (flip_z (flip_y tp))) in
     localize_bin env 0 sent = true ->
     forall fuel, (3 <= fuel)%nat ->
     exists w,
       run env fuel = Some w /\
       commits (trace w) = [sent] /\
       results (trace w) = [Succeeded])
  /\
  (forall n w,
     after_iterations env n init = Some w ->
     commits (trace w) = [] ->
     isPreemptRequested env (preempt_calls w) = true ->
     forall fuel, (n < fuel)%nat ->
     exists w',
       run env fuel = Some w' /\
       results (trace w') = [Preempted] /\
       commits (trace w') = []).
Proof.
  split.
  - intros r0 r1 r2 a0 a1 a2 tp Hrun Hi0 Hi1 Hi2 Ha0 Ha1 Ha2 Hn0 Hn1 Hn2 Ht sent Hc
           fuel Hfuel.
    destruct (Hrun 0%nat) as [Hp0 Ho0]; [lia|].
    destruct (Hrun 1%nat) as [Hp1 Ho1]; [lia|].
    destruct (Hrun 2%nat) as [Hp2 Ho2]; [lia|].
    apply Z.eqb_eq in Hn0, Hn1. apply Z.eqb_neq in Hn2.
    destruct fuel as [|[|[|fuel]]]; try lia.
    unfold run, Prog.exec. cbn [localize].
    unfold localize_body, Prog.bind, preempt_or_shutdown, Prog.bind,
      server_isPreemptRequested, ros_ok. cbn.
    rewrite Hp0. cbn. rewrite Ho0. cbn. rewrite Hi0. cbn. rewrite Ha0. cbn.
    rewrite Hn0. cbn.
    rewrite Hp1. cbn. rewrite Ho1. cbn. rewrite Hi1. cbn. rewrite Ha1. cbn.
    rewrite Hn1. cbn.
    rewrite Hp2. cbn. rewrite Ho2. cbn. rewrite Hi2. cbn. rewrite Ha2. cbn.
    rewrite Hn2. cbn. rewrite Ht. cbn.
    fold sent. rewrite Hc. cbn.
    eexists. split; [reflexivity|]. cbn. auto.
  - intros n w Hn Hnone Hp fuel Hfuel.
    destruct (after_iterations_localize n init w Hn) as [R L].
    replace fuel with (n + S (fuel - S n))%nat by lia.
    unfold run, Prog.exec. rewrite L.
    destruct (localize_step (fuel - S n) w) as (w1 & _ & R1 & C1 & L1).
    rewrite L1.
    assert (Ha : attempt env w = PreemptRequest).
    { unfold attempt. now rewrite Hp. }
    rewrite Ha in *. cbn in *.
    exists w1. split; [reflexivity|].
    rewrite R1, C1, R, Hnone. auto.
Qed.

End Server.

(** *** Examples *)

Import Examples.

Lemma localize_third_attempt_and_preemption_witness :
  (exists w,
     run third_time_lucky 3 = Some w /\
     commits (trace w) = [bin_pose] /\
     results (trace w) = [Succeeded]) /\
  (exists w,
     run blind 5 = Some w /\
     results (trace w) = [Preempted] /\
     commits (trace w) = []).
Proof.
  split.
  - apply (proj1 (localize_third_attempt_and_preemption third_time_lucky)
             (mkWrappedImage 0%N 0%N) (mkWrappedImage 1%N 0%N) (mkWrappedImage 2%N 0%N)
             (mkArucoResult 0 seen_pose) (mkArucoResult 0 seen_pose)
             (mkArucoResult 1 seen_pose) base_pose);
      first [reflexivity | discriminate | intros i Hi; split; reflexivity].
  - apply (proj2 (localize_third_attempt_and_preemption blind)
             2%nat blind_third_look).
    + vm_compute. reflexivity.
    + reflexivity.
    + reflexivity.
    + lia.
Defined.

Lemma localize_retries_and_never_aborts_witness :
  (exists w1,
     localize_body bumpy init = Some (Continue, w1) /\
     results (trace w1) = results (trace init) /\
     forall fuel, localize bumpy (S fuel) init = localize bumpy fuel w1) /\
  (exists w,
     run bumpy 4 = Some w /\
     (results (trace w) = [Succeeded] \/ results (trace w) = [Preempted])).
Proof.
  split.
  - apply (proj1 (localize_retries_and_never_aborts bumpy) init). reflexivity.
  - destruct (run bumpy 4) as [w|] eqn:E; [|vm_compute in E; discriminate E].
    exists w. split; [reflexivity|].
    apply (proj2 (localize_retries_and_never_aborts bumpy) 4%nat). exact E.
Defined.

Lemma commit_needs_markers_and_transform_witness :
  exists response result tp,
    image_client bumpy 1 = Some response /\
    aruco bumpy 0 (mkArucoGoal (image response) (camera_info response)) = Some result /\
    number_found result <> 0 /\
    transform_pose bumpy 0 (relative_pose result) "base_footprint"%string = Some tp.
Proof.
  destruct (commit_needs_markers_and_transform bumpy bumpy_second_look)
    as (s & w' & B & _ & H & _).
  apply H. vm_compute in B. injection B as <- <-. discriminate.
Defined.

Lemma commit_pose_is_corrected_witness :
  exists response result tp,
    image_client bumpy 1 = Some response /\
    aruco bumpy 0 (mkArucoGoal (image response) (camera_info response)) = Some result /\
    transform_pose bumpy 0 (relative_pose result) "base_footprint"%string = Some tp /\
    Point.x (Pose.position (PoseStamped.pose bin_pose))
      = Point.x (Pose.position (PoseStamped.pose tp)) /\
    Point.y (Pose.position (PoseStamped.pose bin_pose))
      = (- Point.y (Pose.position (PoseStamped.pose tp)))%Q /\
    Point.z (Pose.position (PoseStamped.pose bin_pose))
      = (- Point.z (Pose.position (PoseStamped.pose tp)))%Q /\
    Pose.orientation (PoseStamped.pose bin_pose) = Pose.orientation (PoseStamped.pose tp) /\
    Header.frame_id (PoseStamped.header bin_pose) = "odom"%string /\
    Header.stamp (PoseStamped.header bin_pose) = now bumpy 0 /\
    Header.seq (PoseStamped.header bin_pose) = Header.seq (PoseStamped.header tp).
Proof.
  destruct (commit_pose_is_corrected bumpy bumpy_second_look) as (s & w' & B & H).
  apply (H bin_pose).
  vm_compute in B. injection B as <- <-. reflexivity.
Defined.

End LocalizerProps.

(** ** The navigation goal synthesizer *)
Module NavigationProps.

Import NavigationGoalManager.

Section Synthesizer.

Variable geometry : GeometryConstraints -> LocationCode -> Pose.t.

(** C9.  For a manager, that is for fixed geometry constraints and a fixed
    reference frame name, two calls in a row with the same location code
    give the same result and leave the manager as it was; a location code
    that is not supported gives an explicit error and no goal; and a goal,
    when there is one, is for a supported code, in the reference frame of
    the manager, with the pose that the constraints and the code give. *)
Theorem initialize_goal_deterministic_and_total :
  (forall m goal,
     exists r,
       Prog.bind (call geometry goal)
         (fun r1 => Prog.bind (call geometry goal) (fun r2 => Prog.ret (r1, r2))) m
       = Some ((r, r), m))
  /\
  (forall m goal,
     supported goal = false ->
     initialize_goal geometry m goal = inl (UnsupportedLocation goal))
  /\
  (forall m goal g,
     initialize_goal geometry m goal = inr g ->
     supported goal = true /\
     g = mkNavigationGoal (reference_frame m) (geometry (constraints m) goal)).
Proof.
  split; [|split].
  - intros m goal. eexists. reflexivity.
  - intros m goal Hs. unfold initialize_goal. now rewrite Hs.
  - intros m goal g. unfold initialize_goal.
    destruct (supported goal); [|discriminate].
    intros [= <-]. split; reflexivity.
Qed.

End Synthesizer.

Import Examples.

Lemma initialize_goal_deterministic_and_total_witness :
  initialize_goal on_axis manager (OTHER 9) = inl (UnsupportedLocation (OTHER 9)) /\
  (exists r,
     Prog.bind (call on_axis MINING_SITE)
       (fun r1 => Prog.bind (call on_axis MINING_SITE) (fun r2 => Prog.ret (r1, r2)))
       manager
     = Some ((r, r), manager)).
Proof.
  split.
  - apply (proj1 (proj2 (initialize_goal_deterministic_and_total on_axis))). reflexivity.
  - apply (proj1 (initialize_goal_deterministic_and_total on_axis)).
Defined.

End NavigationProps.

(** ** More on the cycles of the teleop server *)
Module TeleopCycles.

Import Teleop TeleopTrace.

Lemma drive_messages_app (a b : list Event) :
  drive_messages (a ++ b) = drive_messages a ++ drive_messages b.
Proof. apply flat_map_app. Qed.

Lemma bin_messages_app (a b : list Event) :
  bin_messages (a ++ b) = bin_messages a ++ bin_messages b.
Proof. apply flat_map_app. Qed.

Lemma polls_app (a b : list Event) : polls (a ++ b) = (polls a + polls b)%nat.
Proof. unfold polls. now rewrite filter_app, length_app. Qed.

Lemma drive_messages_rounds (bin_cmd : Q) (n : nat) :
  drive_messages (rounds bin_cmd n) = [].
Proof. induction n; cbn; auto. Qed.

Lemma bin_messages_rounds (bin_cmd : Q) (n : nat) :
  bin_messages (rounds bin_cmd n) = repeat bin_cmd n.
Proof. induction n; cbn; [reflexivity|]. f_equal. exact IHn. Qed.

Lemma goals_sent_sleeps (n : nat) : goals_sent (repeat Sleep n) = [].
Proof. induction n; cbn; auto. Qed.

Lemma polls_rounds (bin_cmd : Q) (n : nat) : polls (rounds bin_cmd n) = n.
Proof. induction n; cbn; [reflexivity|]. f_equal. exact IHn. Qed.

Section Server.

Variable cc : ControlCode.
Variable drive_stats : DriveVelocity.
Variable env : Env.

(** *** The wait for the digging task, in general *)

(** However the wait ends, it has slept a number of times and then either
    seen the task done, or seen a preemption request or a shutdown and
    cancelled. *)
Lemma dig_wait_exit (fuel : nat) :
  forall w f w',
    dig_wait env fuel w = Some (f, w') ->
    exists n,
      (f = Break /\ isDone env (done_calls w + n) = true /\
       trace w' = trace w ++ repeat Sleep n) \/
      (f = Return /\
       (isPreemptRequested env (preempt_calls w + n) = true \/
        ok env (ok_calls w + n) = false) /\
       trace w' = trace w ++ repeat Sleep n ++ [CancelAllGoals; SetResult Preempted]).
Proof.
  induction fuel as [|fuel IH]; intros w f w' E; [discriminate|].
  cbn [dig_wait] in E. unfold Prog.bind, digging_client_isDone in E.
  destruct (isDone env (done_calls w)) eqn:Hd; cbn in E.
  { injection E as <- <-. exists 0%nat. left. cbn.
    rewrite Nat.add_0_r, app_nil_r. auto. }
  unfold preempt_or_shutdown, Prog.bind, server_isPreemptRequested, ros_ok in E.
  destruct (isPreemptRequested env (preempt_calls w)) eqn:Hp; cbn in E.
  { injection E as <- <-. exists 0%nat. right. cbn.
    rewrite !Nat.add_0_r, <- app_assoc. auto. }
  destruct (ok env (ok_calls w)) eqn:Ho; cbn in E.
  2:{ injection E as <- <-. exists 0%nat. right. cbn.
      rewrite !Nat.add_0_r, <- app_assoc. auto. }
  apply IH in E. destruct E as (n & H). exists (S n). cbn in H.
  rewrite !Nat.add_succ_r.
  destruct H as [(-> & Hdone & T) | (-> & Hstop & T)]; [left | right];
    rewrite T, <- app_assoc; cbn; auto.
Qed.

(** The wait ends by seeing the task done at look [n] when nothing stops
    it before. *)
Lemma dig_wait_done (n : nat) :
  forall fuel w,
    (n < fuel)%nat ->
    (forall i, (i < n)%nat ->
       isDone env (done_calls w + i) = false /\
       isPreemptRequested env (preempt_calls w + i) = false /\
       ok env (ok_calls w + i) = true) ->
    isDone env (done_calls w + n) = true ->
    exists w',
      dig_wait env fuel w = Some (Break, w') /\
      trace w' = trace w ++ repeat Sleep n.
Proof.
  induction n as [|n IH]; intros fuel w Hf Hbefore Hd;
    (destruct fuel as [|fuel]; [lia|]);
    cbn [dig_wait]; unfold Prog.bind, digging_client_isDone.
  - rewrite Nat.add_0_r in Hd. rewrite Hd. cbn.
    eexists. split; [reflexivity|]. cbn. now rewrite app_nil_r.
  - destruct (Hbefore 0%nat (Nat.lt_0_succ _)) as (H0 & Hp & Ho).
    rewrite Nat.add_0_r in H0, Hp, Ho. rewrite H0. cbn.
    unfold preempt_or_shutdown, Prog.bind, server_isPreemptRequested, ros_ok.
    rewrite Hp. cbn. rewrite Ho. cbn.
    match goal with |- context [dig_wait env fuel ?w1] =>
      destruct (IH fuel w1) as (w' & E & T)
    end.
    + lia.
    + intros i Hi. cbn. rewrite <- !Nat.add_succ_r. apply Hbefore. lia.
    + cbn. now rewrite Nat.add_succ_r in Hd.
    + exists w'. split; [exact E|]. rewrite T. cbn. now rewrite <- app_assoc.
Qed.

(** The wait goes on as long as the task is not seen done and nothing
    stops it. *)
Lemma dig_wait_forever (fuel : nat) :
  (forall i, isDone env i = false) ->
  (forall i, isPreemptRequested env i = false) ->
  (forall i, ok env i = true) ->
  forall w, dig_wait env fuel w = None.
Proof.
  intros Hd Hp Ho. induction fuel as [|fuel IH]; intros w; [reflexivity|].
  cbn [dig_wait]. unfold Prog.bind, digging_client_isDone. rewrite Hd. cbn.
  unfold preempt_or_shutdown, Prog.bind, server_isPreemptRequested, ros_ok.
  rewrite Hp. cbn. rewrite Ho. cbn. apply IH.
Qed.

(** The wait ends at the first poll that sees a preemption request or a
    shutdown, when the task is not seen done up to that poll. *)
Lemma dig_wait_stopped (j : nat) :
  forall fuel w,
    (j < fuel)%nat ->
    (forall i, (i <= j)%nat -> isDone env (done_calls w + i) = false) ->
    (forall i, (i < j)%nat ->
       isPreemptRequested env (preempt_calls w + i) = false /\
       ok env (ok_calls w + i) = true) ->
    isPreemptRequested env (preempt_calls w + j) = true \/
    isPreemptRequested env (preempt_calls w + j) = false /\
    ok env (ok_calls w + j) = false ->
    exists w',
      dig_wait env fuel w = Some (Return, w') /\
      trace w' = trace w ++ repeat Sleep j ++ [CancelAllGoals; SetResult Preempted].
Proof.
  induction j as [|j IH]; intros fuel w Hf Hd Hbefore Hstop;
    (destruct fuel as [|fuel]; [lia|]);
    cbn [dig_wait]; unfold Prog.bind, digging_client_isDone;
    (assert (H0 := Hd 0%nat (Nat.le_0_l _)); rewrite Nat.add_0_r in H0; rewrite H0); cbn;
    unfold preempt_or_shutdown, Prog.bind, server_isPreemptRequested, ros_ok.
  - rewrite !Nat.add_0_r in Hstop. destruct Hstop as [Hp | [Hp Ho]]; rewrite Hp; cbn.
    + eexists. split; [reflexivity|]. cbn. now rewrite <- app_assoc.
    + rewrite Ho. cbn. eexists. split; [reflexivity|]. cbn. now rewrite <- app_assoc.
  - destruct (Hbefore 0%nat (Nat.lt_0_succ _)) as (Hp & Ho).
    rewrite Nat.add_0_r in Hp, Ho. rewrite Hp. cbn. rewrite Ho. cbn.
    match goal with |- context [dig_wait env fuel ?w1] =>
      destruct (IH fuel w1) as (w' & E & T)
    end.
    + lia.
    + intros i Hi. cbn. rewrite <- Nat.add_succ_r. apply Hd. lia.
    + intros i Hi. cbn. rewrite <- !Nat.add_succ_r. apply Hbefore. lia.
    + cbn. now rewrite !Nat.add_succ_r in Hstop.
    + exists w'. split; [exact E|]. rewrite T. cbn. now rewrite <- app_assoc.
Qed.

Lemma run_dig (fuel : nat) :
  run cc drive_stats env fuel DIG =
  Prog.exec (Prog.bind (dig_wait env fuel) finish) (dig_started env).
Proof.
  unfold run, Prog.exec, processCommand. cbn [dispatch].
  unfold Prog.bind, call_digging_time, Prog.bind, emit, dig_started, dig_goal.
  destruct (digging_time env); reflexivity.
Qed.

(** *** The wait for the bin, in general *)

(** The loop is left without a poll at the first check that sees a
    preemption request or a shutdown, when no poll before has put the
    target in [query]. *)
Lemma bin_wait_stopped (target : Z) (bin_cmd : Q) (j : nat) :
  forall fuel w query,
    (j < fuel)%nat ->
    (forall i, (i < j)%nat ->
       isPreemptRequested env (preempt_calls w + i) = false /\
       ok env (ok_calls w + i) = true) ->
    (forall i, (i < j)%nat -> code (polled env query (bin_calls w) (S i)) <> target) ->
    isPreemptRequested env (preempt_calls w + j) = true \/
    isPreemptRequested env (preempt_calls w + j) = false /\
    ok env (ok_calls w + j) = false ->
    exists w',
      bin_wait env target bin_cmd fuel query w =
        Some (polled env query (bin_calls w) j, w') /\
      trace w' = trace w ++ rounds bin_cmd j /\
      preempt_calls w' = (preempt_calls w + S j)%nat.
Proof.
  induction j as [|j IH]; intros fuel w query Hf Hrun Hno Hstop;
    (destruct fuel as [|fuel]; [lia|]);
    cbn [bin_wait]; unfold Prog.bind at 1, running, Prog.bind,
      server_isPreemptRequested, ros_ok.
  - rewrite !Nat.add_0_r in Hstop. destruct Hstop as [Hp | [Hp Ho]]; rewrite Hp; cbn.
    + eexists. split; [reflexivity|]. cbn. rewrite app_nil_r. split; [reflexivity|lia].
    + rewrite Ho. eexists. split; [reflexivity|]. cbn. rewrite app_nil_r.
      split; [reflexivity|lia].
  - destruct (Hrun 0%nat (Nat.lt_0_succ _)) as [Hp Ho].
    rewrite Nat.add_0_r in Hp, Ho. rewrite Hp. cbn. rewrite Ho.
    match goal with |- context [call_bin_state env query ?w1] =>
      destruct (TeleopProps.call_bin_state_answered env query w1) as [b ->]
    end; cbn [snd bin_calls].
    assert (Hfirst := Hno 0%nat (Nat.lt_0_succ _)). cbn in Hfirst.
    rewrite (proj2 (Z.eqb_neq _ _) Hfirst). cbn.
    match goal with |- context [bin_wait env target bin_cmd fuel ?q1 ?w1] =>
      destruct (IH fuel w1 q1) as (w' & E & T & P)
    end.
    + lia.
    + intros i Hi. cbn. rewrite <- !Nat.add_succ_r. apply Hrun. lia.
    + intros i Hi. cbn [bin_calls]. apply (Hno (S i)). lia.
    + cbn. now rewrite !Nat.add_succ_r in Hstop.
    + exists w'. cbn [bin_calls] in E. split; [exact E|].
      rewrite T, P. cbn. rewrite <- !app_assoc. split; [reflexivity|lia].
Qed.

(** The loop goes on as long as no poll puts the target in [query] and
    nothing stops it. *)
Lemma bin_wait_forever (target : Z) (bin_cmd : Q) (fuel : nat) :
  (forall i, isPreemptRequested env i = false) ->
  (forall i, ok env i = true) ->
  forall w query,
    (forall i, code (polled env query (bin_calls w) (S i)) <> target) ->
    bin_wait env target bin_cmd fuel query w = None.
Proof.
  intros Hp Ho. induction fuel as [|fuel IH]; intros w query Hno; [reflexivity|].
  cbn [bin_wait]. unfold Prog.bind at 1, running, Prog.bind,
    server_isPreemptRequested, ros_ok.
  rewrite Hp. cbn. rewrite Ho.
  match goal with |- context [call_bin_state env query ?w1] =>
    destruct (TeleopProps.call_bin_state_answered env query w1) as [b ->]
  end; cbn [snd bin_calls].
  assert (Hfirst := Hno 0%nat). cbn in Hfirst.
  rewrite (proj2 (Z.eqb_neq _ _) Hfirst). cbn.
  apply IH. intros i. cbn [bin_calls]. apply (Hno (S i)).
Qed.

(** Every bin cycle that ends has published the stop message, then gone
    through a number of rounds, then ended in one of four ways. *)
Lemma move_bin_ends (target : Z) (bin_cmd : Q) (fuel : nat) (w w' : World) :
  Prog.exec (Prog.bind (move_bin env target bin_cmd fuel Twist.zero) finish) w = Some w' ->
  exists n tail,
    bin_tail tail /\
    trace w' = trace w ++ [PublishDrive Twist.zero] ++ rounds bin_cmd n ++ tail.
Proof.
  unfold Prog.exec, move_bin, Prog.bind. unfold emit at 1.
  match goal with |- context [bin_wait env target bin_cmd fuel ?q ?w1] =>
    destruct (bin_wait env target bin_cmd fuel q w1) as [[q' w2]|] eqn:E;
      [apply TeleopProps.bin_wait_exit in E | discriminate]
  end.
  destruct E as (n & P & H). cbn [preempt_calls bin_calls trace] in P, H.
  unfold server_isPreemptRequested. cbn beta.
  destruct (isPreemptRequested env (preempt_calls w2)); cbn;
    intros [= <-]; exists n; cbn;
    destruct H as [[_ T] | [_ T]]; rewrite T, <- !app_assoc; cbn;
    eexists; (split; [|reflexivity]); unfold bin_tail; auto.
Qed.

Lemma results_bin_tail (tail : list Event) :
  bin_tail tail -> results tail = [Succeeded] \/ results tail = [Preempted].
Proof. intros [-> | [-> | [-> | ->]]]; cbn; auto. Qed.

(** *** Properties of the cycles *)

Lemma one_result_succeeded (c : TeleopCode) (w : World) :
  results (trace w) = [Succeeded] ->
  (forall raw, c <> OTHER raw) ->
  exists o,
    results (trace w) = [o] /\
    (o = Aborted <-> exists raw, c = OTHER raw) /\
    (o = Preempted -> immediate c = false).
Proof.
  intros R Hc. exists Succeeded. split; [exact R|]. split; [|discriminate].
  split; [discriminate | intros [raw ->]; now elim (Hc raw)].
Qed.

Lemma one_result_of_loop (c : TeleopCode) (w : World) :
  results (trace w) = [Succeeded] \/ results (trace w) = [Preempted] ->
  immediate c = false ->
  exists o,
    results (trace w) = [o] /\
    (o = Aborted <-> exists raw, c = OTHER raw) /\
    (o = Preempted -> immediate c = false).
Proof.
  intros [R | R] Hi; eexists; (split; [exact R|]); (split; [|intros _; exact Hi]);
    (split; [discriminate | intros [raw ->]; discriminate Hi]).
Qed.

(** X1.  A cycle that ends has set exactly one result.  The result is
    Aborted exactly for the codes that no case label matches, and it is
    Preempted only for Dig, Dump and Reset-Dumping. *)
Theorem cycle_sets_exactly_one_result (fuel : nat) (c : TeleopCode) (w : World) :
  run cc drive_stats env fuel c = Some w ->
  exists o,
    results (trace w) = [o] /\
    (o = Aborted <-> exists raw, c = OTHER raw) /\
    (o = Preempted -> immediate c = false).
Proof.
  intros E.
  destruct c;
    try (cbn in E; injection E as <-; apply one_result_succeeded;
         [reflexivity | discriminate]).
  - rewrite run_dig in E. unfold Prog.exec, Prog.bind in E.
    destruct (dig_wait env fuel (dig_started env)) as [[f w1]|] eqn:D; [|discriminate].
    apply dig_wait_exit in D. destruct D as (n & [(-> & _ & T) | (-> & _ & T)]);
      cbn in E; injection E as <-; apply one_result_of_loop; try reflexivity;
      cbn; rewrite T; cbn;
      rewrite ?TeleopProps.results_app, TeleopProps.results_sleeps; cbn; auto.
  - rewrite (TeleopProps.run_bin_command cc drive_stats env DUMP _ _ fuel eq_refl) in E.
    apply move_bin_ends in E. destruct E as (n & tail & Ht & T).
    apply one_result_of_loop; [|reflexivity].
    rewrite T. cbn [init trace app].
    change (?a :: rounds ?b n ++ tail) with ([a] ++ rounds b n ++ tail).
    rewrite TeleopProps.results_bin_cycle. now apply results_bin_tail.
  - rewrite (TeleopProps.run_bin_command cc drive_stats env RESET_DUMPING _ _ fuel eq_refl) in E.
    apply move_bin_ends in E. destruct E as (n & tail & Ht & T).
    apply one_result_of_loop; [|reflexivity].
    rewrite T. cbn [init trace app].
    change (?a :: rounds ?b n ++ tail) with ([a] ++ rounds b n ++ tail).
    rewrite TeleopProps.results_bin_cycle. now apply results_bin_tail.
  - cbn in E. injection E as <-. exists Aborted. cbn. split; [reflexivity|].
    split; [split; eauto | discriminate].
Qed.

(** X2.  A Dig cycle in which the digging task is seen done at look [n],
    with no preemption request and no shutdown seen before, ends
    Succeeded after [n] sleeps; it sends its goal once and cancels nothing. *)
Theorem dig_succeeds_without_cancel (n fuel : nat) :
  (n < fuel)%nat ->
  (forall i, (i < n)%nat ->
     isDone env i = false /\ isPreemptRequested env i = false /\ ok env i = true) ->
  isDone env n = true ->
  exists w,
    run cc drive_stats env fuel DIG = Some w /\
    trace w =
      [CallDiggingTime; SendGoal (dig_goal env)] ++ repeat Sleep n ++
      [SetResult Succeeded] /\
    cancels (trace w) = 0%nat.
Proof.
  intros Hf Hbefore Hd. rewrite run_dig. unfold Prog.exec, Prog.bind.
  destruct (dig_wait_done n fuel (dig_started env) Hf Hbefore Hd) as (w' & E & T).
  rewrite E. cbn [finish emit]. eexists. split; [reflexivity|].
  cbn [trace]. rewrite T. unfold dig_started. cbn [trace].
  rewrite <- app_assoc. split; [reflexivity|].
  rewrite !TeleopProps.cancels_app, TeleopProps.cancels_sleeps. reflexivity.
Qed.

(** X3.  In a Dig cycle a shutdown of the node counts as a preemption:
    when [ros::ok()] is false at a poll up to which the task was not seen
    done, the server cancels the goals of the digging task and sets the
    result Preempted. *)
Theorem dig_shutdown_cancels (j fuel : nat) :
  (j < fuel)%nat ->
  (forall i, (i <= j)%nat -> isDone env i = false /\ isPreemptRequested env i = false) ->
  (forall i, (i < j)%nat -> ok env i = true) ->
  ok env j = false ->
  exists w,
    run cc drive_stats env fuel DIG = Some w /\
    trace w =
      [CallDiggingTime; SendGoal (dig_goal env)] ++ repeat Sleep j ++
      [CancelAllGoals; SetResult Preempted].
Proof.
  intros Hf Hbefore Hok Hdown. rewrite run_dig. unfold Prog.exec, Prog.bind.
  destruct (dig_wait_stopped j fuel (dig_started env) Hf) as (w' & E & T).
  - intros i Hi. cbn. now apply Hbefore.
  - intros i Hi. cbn. split; [apply (Hbefore i); lia | now apply Hok].
  - right. cbn. split; [now apply (Hbefore j) | exact Hdown].
  - rewrite E. cbn [finish Prog.ret]. exists w'. split; [reflexivity|].
    rewrite T. reflexivity.
Qed.

(** X4.  A Dig cycle that ends has sent exactly one goal, and it has
    cancelled the goals of the digging task exactly when it ends
    Preempted: either the task was seen done, the result is Succeeded and
    nothing was cancelled, or a poll saw a preemption request or a
    shutdown, the goals were cancelled once and the result is Preempted. *)
Theorem dig_cancels_exactly_when_preempted (fuel : nat) (w : World) :
  run cc drive_stats env fuel DIG = Some w ->
  goals_sent (trace w) = [dig_goal env] /\
  ((exists n, isDone env n = true /\
              trace w = trace (dig_started env) ++ repeat Sleep n ++ [SetResult Succeeded]) /\
   results (trace w) = [Succeeded] /\ cancels (trace w) = 0%nat
   \/
   (exists n, (isPreemptRequested env n = true \/ ok env n = false) /\
              trace w = trace (dig_started env) ++ repeat Sleep n ++
                        [CancelAllGoals; SetResult Preempted]) /\
   results (trace w) = [Preempted] /\ cancels (trace w) = 1%nat).
Proof.
  intros E. rewrite run_dig in E. unfold Prog.exec, Prog.bind in E.
  destruct (dig_wait env fuel (dig_started env)) as [[f w1]|] eqn:D; [|discriminate].
  apply dig_wait_exit in D. cbn [done_calls preempt_calls ok_calls dig_started] in D.
  destruct D as (n & [(-> & Hd & T) | (-> & Hstop & T)]);
    cbn in E; injection E as <-; cbn [trace]; rewrite T;
    rewrite <- ?app_assoc;
    rewrite !TeleopProps.goals_sent_app, !TeleopProps.results_app,
      !TeleopProps.cancels_app, goals_sent_sleeps,
      TeleopProps.results_sleeps, TeleopProps.cancels_sleeps.
  - split; [reflexivity|]. left. split; [|split; reflexivity].
    exists n. split; [exact Hd | reflexivity].
  - split; [reflexivity|]. right. split; [|split; reflexivity].
    exists n. split; [exact Hstop | reflexivity].
Qed.

(** X5.  The wait of a Dig cycle has no timeout: when the digging task is
    never seen done, preemption is never requested and the node keeps
    running, the cycle is still waiting after any number of polls. *)
Theorem dig_waits_without_bound (fuel : nat) :
  (forall i, isDone env i = false) ->
  (forall i, isPreemptRequested env i = false) ->
  (forall i, ok env i = true) ->
  run cc drive_stats env fuel DIG = None.
Proof.
  intros Hd Hp Ho. rewrite run_dig. unfold Prog.exec, Prog.bind.
  now rewrite (dig_wait_forever fuel Hd Hp Ho).
Qed.

(** X6.  The polling of a Dump or Reset-Dumping cycle has no timeout:
    when no poll ever leaves the target code in the response, preemption is
    never requested and the node keeps running, the cycle is still polling
    after any number of rounds. *)
Theorem bin_cycle_polls_without_bound
    (c : TeleopCode) (target : Z) (bin_cmd : Q) (fuel : nat) :
  bin_target cc c = Some (target, bin_cmd) ->
  (forall k, compared env k <> target) ->
  (forall i, isPreemptRequested env i = false) ->
  (forall i, ok env i = true) ->
  run cc drive_stats env fuel c = None.
Proof.
  intros Hc Hno Hp Ho.
  rewrite (TeleopProps.run_bin_command cc drive_stats env c target bin_cmd fuel Hc).
  unfold Prog.exec, move_bin, Prog.bind. unfold emit at 1.
  rewrite (bin_wait_forever target bin_cmd fuel Hp Ho); [reflexivity|].
  intros i. exact (Hno i).
Qed.

(** X7.  A Dump or Reset-Dumping cycle that is left because the node shuts
    down, without a preemption request, ends Succeeded although no poll
    compared the target: the loop is left at the check that sees
    [ros::ok()] false, and the check that follows the loop only looks at
    the preemption request. *)
Theorem bin_cycle_succeeds_on_shutdown
    (c : TeleopCode) (target : Z) (bin_cmd : Q) (j fuel : nat) :
  bin_target cc c = Some (target, bin_cmd) ->
  (j < fuel)%nat ->
  (forall i, (i < j)%nat -> ok env i = true /\ compared env i <> target) ->
  (forall i, (i <= S j)%nat -> isPreemptRequested env i = false) ->
  ok env j = false ->
  exists w,
    run cc drive_stats env fuel c = Some w /\
    trace w = [PublishDrive Twist.zero] ++ rounds bin_cmd j ++ [SetResult Succeeded].
Proof.
  intros Hc Hf Hbefore Hp Hdown.
  rewrite (TeleopProps.run_bin_command cc drive_stats env c target bin_cmd fuel Hc).
  unfold Prog.exec, move_bin, Prog.bind. unfold emit at 1.
  match goal with |- context [bin_wait env target bin_cmd fuel ?q ?w1] =>
    destruct (bin_wait_stopped target bin_cmd j fuel w1 q Hf) as (w' & E & T & P)
  end.
  - intros i Hi. cbn. split; [apply Hp; lia | now apply Hbefore].
  - intros i Hi. cbn. now apply Hbefore.
  - right. cbn. split; [apply Hp; lia | exact Hdown].
  - rewrite E. unfold server_isPreemptRequested. cbn beta. rewrite P. cbn.
    rewrite (Hp (S j) (Nat.le_refl _)). cbn.
    eexists. split; [reflexivity|]. cbn. rewrite T. cbn.
    rewrite <- ?app_assoc. reflexivity.
Qed.

(** X8.  A Dump or Reset-Dumping cycle in which a loop check sees a
    preemption request that is still there at the check after the loop
    ends Preempted, with no poll and no bin command after the request; when
    the request is there from the start, the stop message is all that the
    cycle publishes. *)
Theorem bin_cycle_preempted_in_loop
    (c : TeleopCode) (target : Z) (bin_cmd : Q) (j fuel : nat) :
  bin_target cc c = Some (target, bin_cmd) ->
  (j < fuel)%nat ->
  (forall i, (i < j)%nat ->
     isPreemptRequested env i = false /\ ok env i = true /\ compared env i <> target) ->
  isPreemptRequested env j = true ->
  isPreemptRequested env (S j) = true ->
  exists w,
    run cc drive_stats env fuel c = Some w /\
    trace w = [PublishDrive Twist.zero] ++ rounds bin_cmd j ++ [SetResult Preempted].
Proof.
  intros Hc Hf Hbefore Hp Hstill.
  rewrite (TeleopProps.run_bin_command cc drive_stats env c target bin_cmd fuel Hc).
  unfold Prog.exec, move_bin, Prog.bind. unfold emit at 1.
  match goal with |- context [bin_wait env target bin_cmd fuel ?q ?w1] =>
    destruct (bin_wait_stopped target bin_cmd j fuel w1 q Hf) as (w' & E & T & P)
  end.
  - intros i Hi. cbn. destruct (Hbefore i Hi) as (A & B & _). auto.
  - intros i Hi. cbn. now apply Hbefore.
  - left. exact Hp.
  - rewrite E. unfold server_isPreemptRequested. cbn beta. rewrite P. cbn.
    rewrite Hstill. cbn.
    eexists. split; [reflexivity|]. cbn. rewrite T. cbn.
    rewrite <- ?app_assoc. reflexivity.
Qed.

(** X9.  In every Dump or Reset-Dumping cycle that ends, whatever the
    environment: exactly one drive message is published, all zeros, and it
    comes first; then come a number [n] of rounds, each a poll followed by
    the bin command of the cycle (BIN_MAX for Dump, BIN_MIN for
    Reset-Dumping) and a sleep; then the cycle ends either with a last poll
    directly followed by the result, so that no bin command follows the
    poll that ended the loop and there is one bin command less than polls,
    or with the result alone, with as many bin commands as polls. *)
Theorem bin_cycle_messages
    (c : TeleopCode) (target : Z) (bin_cmd : Q) (fuel : nat) (w : World) :
  bin_target cc c = Some (target, bin_cmd) ->
  run cc drive_stats env fuel c = Some w ->
  exists n o,
    (o = Succeeded \/ o = Preempted) /\
    drive_messages (trace w) = [Twist.zero] /\
    bin_messages (trace w) = repeat bin_cmd n /\
    (trace w = [PublishDrive Twist.zero] ++ rounds bin_cmd n ++
               [CallBinState; SetResult o] /\
     polls (trace w) = S n
     \/
     trace w = [PublishDrive Twist.zero] ++ rounds bin_cmd n ++ [SetResult o] /\
     polls (trace w) = n).
Proof.
  intros Hc E.
  rewrite (TeleopProps.run_bin_command cc drive_stats env c target bin_cmd fuel Hc) in E.
  apply move_bin_ends in E. destruct E as (n & tail & Ht & T).
  cbn [init trace app] in T. rewrite T.
  change (?a :: rounds ?b n ++ tail) with ([a] ++ rounds b n ++ tail).
  rewrite !drive_messages_app, !bin_messages_app, !polls_app,
    drive_messages_rounds, bin_messages_rounds, polls_rounds.
  exists n.
  destruct Ht as [-> | [-> | [-> | ->]]];
    [exists Succeeded | exists Preempted | exists Succeeded | exists Preempted];
    cbn [drive_messages bin_messages polls flat_map filter List.length app];
    rewrite ?app_nil_r;
    (split; [auto|]); (split; [reflexivity|]); (split; [reflexivity|]);
    [left | left | right | right]; (split; [reflexivity | lia]).
Qed.

End Server.

(** X10.  The commands without a loop keep no state and ask nothing: for
    each of them there is one list of events, which depends on the drive
    velocity profile only, and which the command appends to the trace from
    any world, under any environment; issued twice in a row, the command
    publishes the same messages twice. *)
Theorem immediate_commands_are_stateless
    (cc : ControlCode) (drive_stats : DriveVelocity) (c : TeleopCode) :
  immediate c = true ->
  exists evs,
    forall env fuel w,
      Prog.exec (processCommand cc drive_stats env fuel c) w
        = Some (after_events w evs) /\
      forall env' fuel',
        Prog.exec (Prog.bind (processCommand cc drive_stats env fuel c)
                     (fun _ => processCommand cc drive_stats env' fuel' c)) w
          = Some (after_events w (evs ++ evs)).
Proof.
  intros Hi.
  exists (match run cc drive_stats (mkEnv (fun _ => false) (fun _ => true) None
                                          (fun _ => None) (fun _ => true)) 0 c with
          | Some w0 => trace w0
          | None => []
          end).
  destruct c; try discriminate Hi;
    intros env fuel w; (split; [|intros env' fuel']);
    unfold Prog.exec, after_events; cbn; rewrite <- ?app_assoc; reflexivity.
Qed.

(** *** Cycles in a row *)

Section Session.

Variable cc : ControlCode.
Variable drive_stats : DriveVelocity.
Variable env : Env.

Lemma process_dig (fuel : nat) (w : World) :
  Prog.exec (processCommand cc drive_stats env fuel DIG) w =
  Prog.exec (Prog.bind (dig_wait env fuel) finish)
            (after_events w [CallDiggingTime; SendGoal (dig_goal env)]).
Proof.
  unfold Prog.exec, processCommand. cbn [dispatch].
  unfold Prog.bind, call_digging_time, Prog.bind, emit, after_events, dig_goal.
  destruct (digging_time env); cbn; rewrite <- !app_assoc; reflexivity.
Qed.

(** A cycle from any world adds exactly one result, which fits its
    command. *)
Lemma process_adds_one_result (fuel : nat) (c : TeleopCode) (w w' : World) :
  Prog.exec (processCommand cc drive_stats env fuel c) w = Some w' ->
  exists o, results (trace w') = results (trace w) ++ [o] /\ result_fits c o.
Proof.
  intros E.
  assert (Hs : forall c0, (forall raw, c0 <> OTHER raw) -> result_fits c0 Succeeded).
  { intros c0 Hc. split; [|discriminate].
    split; [discriminate | intros [raw ->]; now elim (Hc raw)]. }
  assert (Hp : forall c0, immediate c0 = false -> result_fits c0 Preempted).
  { intros c0 Hi. split; [|intros _; exact Hi].
    split; [discriminate | intros [raw ->]; discriminate Hi]. }
  destruct c;
    try (cbn in E; injection E as <-; exists Succeeded; cbn;
         rewrite ?TeleopProps.results_app; cbn; rewrite ?app_nil_r;
         split; [reflexivity | apply Hs; discriminate]).
  - rewrite process_dig in E. unfold Prog.exec, Prog.bind in E.
    match type of E with context [dig_wait env fuel ?w0] =>
      destruct (dig_wait env fuel w0) as [[f w1]|] eqn:D; [|discriminate]
    end.
    apply dig_wait_exit in D. destruct D as (n & [(-> & _ & T) | (-> & _ & T)]);
      cbn in E; injection E as <-; cbn [trace after_events] in *; rewrite T;
      rewrite !TeleopProps.results_app, TeleopProps.results_sleeps; cbn;
      rewrite ?app_nil_r; eexists; (split; [reflexivity|]).
    + apply Hs. discriminate.
    + now apply Hp.
  - change (Prog.exec (Prog.bind (move_bin env (RAISED cc) (BIN_MAX cc) fuel Twist.zero)
                         finish) w = Some w') in E.
    apply move_bin_ends in E. destruct E as (n & tail & Ht & ->).
    rewrite !TeleopProps.results_app, TeleopProps.results_rounds. cbn.
    destruct (results_bin_tail tail Ht) as [-> | ->]; eexists; (split; [reflexivity|]).
    + apply Hs. discriminate.
    + now apply Hp.
  - change (Prog.exec (Prog.bind (move_bin env (LOWERED cc) (BIN_MIN cc) fuel Twist.zero)
                         finish) w = Some w') in E.
    apply move_bin_ends in E. destruct E as (n & tail & Ht & ->).
    rewrite !TeleopProps.results_app, TeleopProps.results_rounds. cbn.
    destruct (results_bin_tail tail Ht) as [-> | ->]; eexists; (split; [reflexivity|]).
    + apply Hs. discriminate.
    + now apply Hp.
  - cbn in E. injection E as <-. exists Aborted. cbn.
    rewrite TeleopProps.results_app. split; [reflexivity|].
    split; [split; eauto | discriminate].
Qed.

(** X20.  When the server runs the cycles of several goals one after the
    other and the last one ends, every goal has got exactly one result, in
    the order of the goals: the result of a goal is Aborted exactly when no
    case label matches its code, and it is Preempted only for Dig, Dump and
    Reset-Dumping. *)
Theorem session_gives_one_result_per_goal
    (fuel : nat) (cs : list TeleopCode) (w w' : World) :
  Prog.exec (session cc drive_stats env fuel cs) w = Some w' ->
  exists os,
    results (trace w') = results (trace w) ++ os /\
    Forall2 result_fits cs os.
Proof.
  revert w. induction cs as [|c cs IH]; intros w E.
  - cbn in E. injection E as <-. exists []. rewrite app_nil_r. auto.
  - unfold Prog.exec in E. cbn [session] in E. unfold Prog.bind in E.
    destruct (processCommand cc drive_stats env fuel c w) as [[u w1]|] eqn:P;
      [|discriminate].
    assert (P1 : Prog.exec (processCommand cc drive_stats env fuel c) w = Some w1)
      by (unfold Prog.exec; now rewrite P).
    apply process_adds_one_result in P1. destruct P1 as (o & R1 & F1).
    destruct (IH w1 E) as (os & R & F).
    exists (o :: os). rewrite R, R1, <- app_assoc. split; [reflexivity|].
    now constructor.
Qed.

End Session.

(** *** Examples *)

Import Examples MoreExamples.

Lemma transit_is_compared (k : nat) :
  compared stuck k = 2 /\ compared preempted_bin k = 2 /\ compared node_down k = 2.
Proof.
  unfold compared. rewrite !TeleopProps.polled_last. cbn. auto.
Qed.

Lemma cycle_sets_exactly_one_result_witness :
  exists w o,
    run control_code velocities preempted_dig 5 DIG = Some w /\
    results (trace w) = [o] /\
    (o = Aborted <-> exists raw, DIG = OTHER raw) /\
    (o = Preempted -> immediate DIG = false).
Proof.
  destruct (run control_code velocities preempted_dig 5 DIG) as [w|] eqn:E;
    [|vm_compute in E; discriminate E].
  destruct (cycle_sets_exactly_one_result control_code velocities preempted_dig
              5 DIG w E) as (o & H).
  exists w, o. split; [reflexivity | exact H].
Defined.

Lemma dig_succeeds_without_cancel_witness :
  exists w,
    run control_code velocities dig_finishes 5 DIG = Some w /\
    trace w =
      [CallDiggingTime; SendGoal (dig_goal dig_finishes)] ++ repeat Sleep 2 ++
      [SetResult Succeeded] /\
    cancels (trace w) = 0%nat.
Proof.
  apply (dig_succeeds_without_cancel control_code velocities dig_finishes 2 5).
  - lia.
  - intros i Hi. destruct i as [|[|i]]; cbn; auto. lia.
  - reflexivity.
Defined.

Lemma dig_shutdown_cancels_witness :
  exists w,
    run control_code velocities shutdown_soon 5 DIG = Some w /\
    trace w =
      [CallDiggingTime; SendGoal (dig_goal shutdown_soon)] ++ repeat Sleep 1 ++
      [CancelAllGoals; SetResult Preempted].
Proof.
  apply (dig_shutdown_cancels control_code velocities shutdown_soon 1 5).
  - lia.
  - intros i Hi. split; reflexivity.
  - intros i Hi. destruct i as [|i]; [reflexivity | lia].
  - reflexivity.
Defined.

Lemma dig_cancels_exactly_when_preempted_witness :
  exists w,
    run control_code velocities preempted_dig 5 DIG = Some w /\
    goals_sent (trace w) = [dig_goal preempted_dig] /\
    results (trace w) = [Preempted] /\ cancels (trace w) = 1%nat.
Proof.
  destruct (run control_code velocities preempted_dig 5 DIG) as [w|] eqn:E;
    [|vm_compute in E; discriminate E].
  destruct (dig_cancels_exactly_when_preempted control_code velocities preempted_dig
              5 w E) as (G & [(_ & R & _) | (_ & R & C)]).
  - exfalso. vm_compute in E. injection E as <-. discriminate R.
  - exists w. split; [reflexivity|]. auto.
Defined.

Lemma dig_waits_without_bound_witness :
  run control_code velocities stuck 50 DIG = None.
Proof.
  apply (dig_waits_without_bound control_code velocities stuck 50); reflexivity.
Defined.

Lemma bin_cycle_polls_without_bound_witness :
  run control_code velocities stuck 50 DUMP = None.
Proof.
  apply (bin_cycle_polls_without_bound control_code velocities stuck DUMP 1 (3 # 2) 50);
    try reflexivity.
  intros k. destruct (transit_is_compared k) as (-> & _). discriminate.
Defined.

Lemma bin_cycle_succeeds_on_shutdown_witness :
  exists w,
    run control_code velocities node_down 3 DUMP = Some w /\
    trace w = [PublishDrive Twist.zero] ++ rounds (3 # 2) 0 ++ [SetResult Succeeded].
Proof.
  apply (bin_cycle_succeeds_on_shutdown control_code velocities node_down
           DUMP 1 (3 # 2) 0 3).
  - reflexivity.
  - lia.
  - intros i Hi. lia.
  - reflexivity.
  - reflexivity.
Defined.

Lemma bin_cycle_preempted_in_loop_witness :
  exists w,
    run control_code velocities preempted_bin 3 RESET_DUMPING = Some w /\
    trace w = [PublishDrive Twist.zero] ++ rounds 0 1 ++ [SetResult Preempted].
Proof.
  apply (bin_cycle_preempted_in_loop control_code velocities preempted_bin
           RESET_DUMPING 0 0 1 3).
  - reflexivity.
  - lia.
  - intros i Hi. destruct i as [|i]; [|lia].
    split; [reflexivity|]. split; [reflexivity|].
    destruct (transit_is_compared 0) as (_ & -> & _). discriminate.
  - reflexivity.
  - reflexivity.
Defined.

Lemma bin_cycle_messages_witness :
  exists w n o,
    run control_code velocities bin_rises 5 DUMP = Some w /\
    (o = Succeeded \/ o = Preempted) /\
    drive_messages (trace w) = [Twist.zero] /\
    bin_messages (trace w) = repeat (3 # 2)%Q n /\
    (trace w = [PublishDrive Twist.zero] ++ rounds (3 # 2) n ++
               [CallBinState; SetResult o] /\
     polls (trace w) = S n
     \/
     trace w = [PublishDrive Twist.zero] ++ rounds (3 # 2) n ++ [SetResult o] /\
     polls (trace w) = n).
Proof.
  destruct (run control_code velocities bin_rises 5 DUMP) as [w|] eqn:E;
    [|vm_compute in E; discriminate E].
  destruct (bin_cycle_messages control_code velocities bin_rises DUMP 1 (3 # 2) 5 w
              eq_refl E) as (n & o & H).
  exists w, n, o. split; [reflexivity | exact H].
Defined.

Lemma session_gives_one_result_per_goal_witness :
  exists w os,
    Prog.exec (session control_code velocities preempted_dig 5 [FORWARD; DIG; OTHER 200; DUMP])
              init = Some w /\
    results (trace w) = results (trace init) ++ os /\
    Forall2 result_fits [FORWARD; DIG; OTHER 200; DUMP] os.
Proof.
  destruct (Prog.exec (session control_code velocities preempted_dig 5
                         [FORWARD; DIG; OTHER 200; DUMP]) init) as [w|] eqn:E;
    [|vm_compute in E; discriminate E].
  destruct (session_gives_one_result_per_goal control_code velocities preempted_dig
              5 _ init w E) as (os & H).
  exists w, os. split; [reflexivity | exact H].
Defined.

Lemma immediate_commands_are_stateless_witness :
  exists evs,
    forall env fuel w,
      Prog.exec (processCommand control_code velocities env fuel FORWARD) w
        = Some (after_events w evs) /\
      forall env' fuel',
        Prog.exec (Prog.bind (processCommand control_code velocities env fuel FORWARD)
                     (fun _ => processCommand control_code velocities env' fuel' FORWARD)) w
          = Some (after_events w (evs ++ evs)).
Proof.
  apply (immediate_commands_are_stateless control_code velocities FORWARD).
  reflexivity.
Defined.

End TeleopCycles.

(** ** More on the runs of the localization server *)
Module LocalizerRuns.

Import Localizer.

Section Server.

Variable env : Env.

(** The events of one iteration, with the answers that led to them. *)
Lemma localize_body_events (w : World) :
  exists w' l,
    localize_body env w = Some (step_of (attempt env w), w') /\
    trace w' = trace w ++ l /\
    commit_calls w' = (commit_calls w + List.length (commits l))%nat /\
    match attempt env w with
    | PreemptRequest => l = [SetResult Preempted]
    | ImageCallFailed =>
        image_client env (image_calls w) = None /\ l = [CallImage]
    | ArucoUnreachable | NoMarkers =>
        exists r,
          image_client env (image_calls w) = Some r /\
          l = [CallImage; SendArucoGoal (mkArucoGoal (image r) (camera_info r))]
    | TransformFailed =>
        exists r a,
          image_client env (image_calls w) = Some r /\
          aruco env (aruco_calls w) (mkArucoGoal (image r) (camera_info r)) = Some a /\
          l = [CallImage; SendArucoGoal (mkArucoGoal (image r) (camera_info r));
               TransformPose (relative_pose a) "base_footprint"%string]
    | CommitFailed p =>
        exists r a,
          image_client env (image_calls w) = Some r /\
          aruco env (aruco_calls w) (mkArucoGoal (image r) (camera_info r)) = Some a /\
          localize_bin env (commit_calls w) p = false /\
          l = [CallImage; SendArucoGoal (mkArucoGoal (image r) (camera_info r));
               TransformPose (relative_pose a) "base_footprint"%string;
               CallLocalizeBin p]
    | Committed p =>
        exists r a,
          image_client env (image_calls w) = Some r /\
          aruco env (aruco_calls w) (mkArucoGoal (image r) (camera_info r)) = Some a /\
          localize_bin env (commit_calls w) p = true /\
          l = [CallImage; SendArucoGoal (mkArucoGoal (image r) (camera_info r));
               TransformPose (relative_pose a) "base_footprint"%string;
               CallLocalizeBin p; SetResult Succeeded]
    end.
Proof.
  unfold localize_body, attempt, Prog.bind, preempt_or_shutdown, Prog.bind,
    server_isPreemptRequested, ros_ok.
  destruct (isPreemptRequested env (preempt_calls w)); cbn.
  { eexists _, [SetResult Preempted]. split; [reflexivity|]. cbn.
    split; [reflexivity|]. split; [lia | reflexivity]. }
  destruct (ok env (ok_calls w)); cbn.
  2:{ eexists _, [SetResult Preempted]. split; [reflexivity|]. cbn.
      split; [reflexivity|]. split; [lia | reflexivity]. }
  destruct (image_client env (image_calls w)) as [r|] eqn:Hi; cbn.
  2:{ eexists _, [CallImage]. split; [reflexivity|]. cbn.
      split; [reflexivity|]. split; [lia | auto]. }
  destruct (aruco env (aruco_calls w) _) as [a|] eqn:Ha; cbn.
  2:{ eexists _, [CallImage; SendArucoGoal (mkArucoGoal (image r) (camera_info r))].
      split; [reflexivity|]. cbn. rewrite <- !app_assoc. cbn.
      split; [reflexivity|]. split; [lia|]. exists r. auto. }
  destruct (number_found a =? 0); cbn.
  { eexists _, [CallImage; SendArucoGoal (mkArucoGoal (image r) (camera_info r))].
    split; [reflexivity|]. cbn. rewrite <- !app_assoc. cbn.
    split; [reflexivity|]. split; [lia|]. exists r. auto. }
  destruct (transform_pose env (transform_calls w) _ _) as [p|]; cbn.
  2:{ eexists _, [CallImage; SendArucoGoal (mkArucoGoal (image r) (camera_info r));
                  TransformPose (relative_pose a) "base_footprint"%string].
      split; [reflexivity|]. cbn. rewrite <- !app_assoc. cbn.
      split; [reflexivity|]. split; [lia|]. exists r, a. auto. }
  destruct (localize_bin env (commit_calls w) _) eqn:Hc; cbn.
  - eexists _, [CallImage; SendArucoGoal (mkArucoGoal (image r) (camera_info r));
                TransformPose (relative_pose a) "base_footprint"%string;
                CallLocalizeBin _; SetResult Succeeded].
    split; [reflexivity|]. cbn. rewrite <- !app_assoc. cbn.
    split; [reflexivity|]. split; [lia|]. exists r, a. auto.
  - eexists _, [CallImage; SendArucoGoal (mkArucoGoal (image r) (camera_info r));
                TransformPose (relative_pose a) "base_footprint"%string;
                CallLocalizeBin _].
    split; [reflexivity|]. cbn. rewrite <- !app_assoc. cbn.
    split; [reflexivity|]. split; [lia|]. exists r, a. auto.
Qed.

Lemma set_results_of_app (a b : list Event) :
  results (a ++ b) = results a ++ results b.
Proof. apply flat_map_app. Qed.

Lemma commits_of_app (a b : list Event) :
  commits (a ++ b) = commits a ++ commits b.
Proof. apply flat_map_app. Qed.

(** Without a preemption request, a shutdown or a commit that succeeds,
    an iteration ends by starting the next one. *)
Lemma attempt_transient (w : World) :
  isPreemptRequested env (preempt_calls w) = false ->
  ok env (ok_calls w) = true ->
  (forall p, localize_bin env (commit_calls w) p = false) ->
  transient (attempt env w) = true.
Proof.
  intros Hp Ho Hc. unfold attempt. rewrite Hp, Ho. cbn.
  destruct (image_client env (image_calls w)); [|reflexivity].
  destruct (aruco env (aruco_calls w) _) as [a|]; [|reflexivity].
  destruct (number_found a =? 0); [reflexivity|].
  destruct (transform_pose env (transform_calls w) _ _); [|reflexivity].
  cbv zeta. now rewrite Hc.
Qed.

(** The loop from any world, with the count of commit calls in step with
    the trace. *)
Lemma localize_last_events (fuel : nat) :
  forall w w',
    Prog.exec (localize env fuel) w = Some w' ->
    commit_calls w = List.length (commits (trace w)) ->
    (exists tr p,
       trace w' = tr ++ [CallLocalizeBin p; SetResult Succeeded] /\
       localize_bin env (List.length (commits tr)) p = true /\
       results tr = results (trace w))
    \/
    (exists tr,
       trace w' = tr ++ [SetResult Preempted] /\
       results tr = results (trace w)).
Proof.
  induction fuel as [|fuel IH]; intros w w' E Hinv; [discriminate|].
  unfold Prog.exec in E. cbn [localize] in E. unfold Prog.bind in E.
  destruct (localize_body_events w) as (w1 & l & B & T & C & Shape).
  rewrite B in E.
  assert (Hnext : results l = [] ->
                  Prog.exec (localize env fuel) w1 = Some w' ->
                  (exists tr p,
                     trace w' = tr ++ [CallLocalizeBin p; SetResult Succeeded] /\
                     localize_bin env (List.length (commits tr)) p = true /\
                     results tr = results (trace w))
                  \/
                  (exists tr,
                     trace w' = tr ++ [SetResult Preempted] /\
                     results tr = results (trace w))).
  { intros Hr E1. apply IH in E1.
    - rewrite T, set_results_of_app, Hr, app_nil_r in E1. exact E1.
    - rewrite C, T, commits_of_app, length_app, Hinv. reflexivity. }
  destruct (attempt env w) eqn:A; cbn [step_of] in E.
  - injection E as <-. right. exists (trace w). rewrite T, Shape. auto.
  - destruct Shape as [_ ->]. now apply Hnext.
  - destruct Shape as (r & _ & ->). now apply Hnext.
  - destruct Shape as (r & _ & ->). now apply Hnext.
  - destruct Shape as (r & a & _ & _ & ->). now apply Hnext.
  - destruct Shape as (r & a & _ & _ & _ & ->). now apply Hnext.
  - injection E as <-. destruct Shape as (r & a & _ & _ & Hc & ->). left.
    exists (trace w ++ [CallImage; SendArucoGoal (mkArucoGoal (image r) (camera_info r));
                        TransformPose (relative_pose a) "base_footprint"%string]), p.
    rewrite T, <- app_assoc. split; [reflexivity|].
    rewrite commits_of_app, set_results_of_app, length_app. cbn.
    rewrite Nat.add_0_r, app_nil_r, <- Hinv. auto.
Qed.

(** X11.  The localization loop has no retry cap: as long as preemption is
    not requested, the node keeps running and no commit call succeeds, the
    loop is still retrying after any number of iterations, whatever the
    image service, the marker detector and the transform answer. *)
Theorem localize_retries_without_bound (fuel : nat) :
  (forall i, isPreemptRequested env i = false) ->
  (forall i, ok env i = true) ->
  (forall k p, localize_bin env k p = false) ->
  run env fuel = None.
Proof.
  intros Hp Ho Hc. unfold run, Prog.exec.
  assert (H : forall w, localize env fuel w = None).
  { induction fuel as [|n IH]; intros w; [reflexivity|].
    destruct (LocalizerProps.localize_step env n w) as (w1 & _ & _ & _ & L).
    rewrite L.
    destruct (LocalizerProps.transient_continues (attempt env w)) as [-> _].
    - apply attempt_transient; auto.
    - apply IH. }
  now rewrite H.
Qed.

(** X12.  A run that ends Succeeded ends with a commit call that returned
    true, directly followed by the result; a run that ends Preempted ends
    with that result; nothing follows the result in either case, and no
    result was set before. *)
Theorem localize_ends_after_commit_or_request (fuel : nat) (w : World) :
  run env fuel = Some w ->
  (exists tr p,
     trace w = tr ++ [CallLocalizeBin p; SetResult Succeeded] /\
     localize_bin env (List.length (commits tr)) p = true /\
     results tr = [])
  \/
  (exists tr,
     trace w = tr ++ [SetResult Preempted] /\
     results tr = []).
Proof.
  intros E. apply localize_last_events in E; [exact E | reflexivity].
Qed.

(** X13.  In every iteration, from any world: the marker detector is sent
    exactly the image and the camera info that the image call of the same
    iteration returned; the transform is asked for the relative pose that
    the detection of the same iteration reported, into "base_footprint";
    and a commit call comes after the image call, the detection and the
    transform of its own iteration, in this order. *)
Theorem localize_iteration_data_flow (w : World) :
  exists s w' l,
    localize_body env w = Some (s, w') /\
    trace w' = trace w ++ l /\
    (forall g, In (SendArucoGoal g) l ->
       exists r,
         image_client env (image_calls w) = Some r /\
         g = mkArucoGoal (image r) (camera_info r)) /\
    (forall q f, In (TransformPose q f) l ->
       f = "base_footprint"%string /\
       exists r a,
         image_client env (image_calls w) = Some r /\
         aruco env (aruco_calls w) (mkArucoGoal (image r) (camera_info r)) = Some a /\
         q = relative_pose a) /\
    (forall p, In (CallLocalizeBin p) l ->
       exists g q rest,
         l = [CallImage; SendArucoGoal g; TransformPose q "base_footprint"%string;
              CallLocalizeBin p] ++ rest).
Proof.
  destruct (localize_body_events w) as (w' & l & B & T & _ & Shape).
  exists (step_of (attempt env w)), w', l.
  split; [exact B|]. split; [exact T|].
  destruct (attempt env w).
  - subst l. repeat split; intros; cbn in *; intuition discriminate.
  - destruct Shape as [_ ->]. repeat split; intros; cbn in *; intuition discriminate.
  - destruct Shape as (r & Hi & ->). split; [|split].
    + intros g [H | [H | []]]; [discriminate|]. injection H as <-. eauto.
    + intros q f H. cbn in H. intuition discriminate.
    + intros p H. cbn in H. intuition discriminate.
  - destruct Shape as (r & Hi & ->). split; [|split].
    + intros g [H | [H | []]]; [discriminate|]. injection H as <-. eauto.
    + intros q f H. cbn in H. intuition discriminate.
    + intros p H. cbn in H. intuition discriminate.
  - destruct Shape as (r & a & Hi & Ha & ->). split; [|split].
    + intros g [H | [H | [H | []]]]; try discriminate. injection H as <-. eauto.
    + intros q f [H | [H | [H | []]]]; try discriminate. injection H as <- <-.
      split; [reflexivity|]. eauto.
    + intros p H. cbn in H. intuition discriminate.
  - destruct Shape as (r & a & Hi & Ha & _ & ->). split; [|split].
    + intros g [H | [H | [H | [H | []]]]]; try discriminate. injection H as <-. eauto.
    + intros q f [H | [H | [H | [H | []]]]]; try discriminate. injection H as <- <-.
      split; [reflexivity|]. eauto.
    + intros p0 [H | [H | [H | [H | []]]]]; try discriminate. injection H as <-.
      eexists _, _, []. reflexivity.
  - destruct Shape as (r & a & Hi & Ha & _ & ->). split; [|split].
    + intros g [H | [H | [H | [H | [H | []]]]]]; try discriminate.
      injection H as <-. eauto.
    + intros q f [H | [H | [H | [H | [H | []]]]]]; try discriminate.
      injection H as <- <-. split; [reflexivity|]. eauto.
    + intros p0 [H | [H | [H | [H | [H | []]]]]]; try discriminate.
      injection H as <-. eexists _, _, [_]. reflexivity.
Qed.

(** X14.  A shutdown of the node ends the localization loop as a
    preemption does: when [ros::ok()] is false at the top of an iteration,
    the loop ends there with the result Preempted and the iteration makes
    no call, not even for an image. *)
Theorem localize_shutdown_is_preempted (fuel : nat) (w : World) :
  isPreemptRequested env (preempt_calls w) = false ->
  ok env (ok_calls w) = false ->
  exists w',
    Prog.exec (localize env (S fuel)) w = Some w' /\
    trace w' = trace w ++ [SetResult Preempted] /\
    image_calls w' = image_calls w.
Proof.
  intros Hp Ho. unfold Prog.exec. cbn [localize].
  unfold Prog.bind, localize_body, Prog.bind, preempt_or_shutdown, Prog.bind,
    server_isPreemptRequested, ros_ok.
  rewrite Hp. cbn. rewrite Ho. cbn.
  eexists. split; [reflexivity|]. cbn. auto.
Qed.

End Server.

(** *** Examples *)

Import Examples MoreExamples.

Lemma localize_retries_without_bound_witness :
  run never_committed 50 = None.
Proof.
  apply (localize_retries_without_bound never_committed 50); reflexivity.
Defined.

Lemma localize_ends_after_commit_or_request_witness :
  exists w,
    run third_time_lucky 3 = Some w /\
    ((exists tr p,
        trace w = tr ++ [CallLocalizeBin p; SetResult Succeeded] /\
        localize_bin third_time_lucky (List.length (commits tr)) p = true /\
        results tr = [])
     \/
     (exists tr,
        trace w = tr ++ [SetResult Preempted] /\
        results tr = [])).
Proof.
  destruct (run third_time_lucky 3) as [w|] eqn:E; [|vm_compute in E; discriminate E].
  exists w. split; [reflexivity|].
  exact (localize_ends_after_commit_or_request third_time_lucky 3 w E).
Defined.

Lemma localize_iteration_data_flow_witness :
  exists r,
    image_client bumpy 1 = Some r /\
    mkArucoGoal 1%N 0%N = mkArucoGoal (image r) (camera_info r).
Proof.
  destruct (localize_iteration_data_flow bumpy bumpy_second_look)
    as (s & w' & l & B & T & Hg & _).
  apply Hg. vm_compute in B. injection B as <- <-. cbn in T.
  injection T as <-. cbn. auto.
Defined.

Lemma localize_shutdown_is_preempted_witness :
  exists w',
    Prog.exec (localize shut_down 1) init = Some w' /\
    trace w' = trace init ++ [SetResult Preempted] /\
    image_calls w' = image_calls init.
Proof.
  apply (localize_shutdown_is_preempted shut_down 0 init); reflexivity.
Defined.

End LocalizerRuns.

(** ** The start of the localization server *)
Module LocalizerStartupProps.

Import LocalizerStartup.

Section Constructor.

Variable env : Localizer.Env.

Lemma connect_answers (k : nat) :
  forall fuel w,
    (k < fuel)%nat ->
    (forall i, (i < k)%nat -> Localizer.image_client env (image_calls w + i) = None) ->
    Localizer.image_client env (image_calls w + k) <> None ->
    connect_image_client env fuel w =
      Some (tt, mkWorld (image_calls w + S k) (trace w ++ repeat CallImage (S k))).
Proof.
  induction k as [|k IH]; intros fuel w Hf Hnone Hsome;
    (destruct fuel as [|fuel]; [lia|]);
    cbn [connect_image_client]; unfold Prog.bind, image_client_call.
  - rewrite Nat.add_0_r in Hsome.
    destruct (Localizer.image_client env (image_calls w)); [|now elim Hsome].
    cbn. now rewrite Nat.add_1_r.
  - assert (H0 := Hnone 0%nat (Nat.lt_0_succ _)). rewrite Nat.add_0_r in H0.
    rewrite H0. cbn [negb].
    rewrite IH.
    + cbn [image_calls trace]. rewrite <- app_assoc, !Nat.add_succ_r. reflexivity.
    + lia.
    + intros i Hi. cbn [image_calls]. rewrite Nat.add_succ_comm. apply Hnone. lia.
    + cbn [image_calls]. now rewrite Nat.add_succ_comm.
Qed.

Lemma connect_waits (fuel : nat) :
  (forall i, Localizer.image_client env i = None) ->
  forall w, connect_image_client env fuel w = None.
Proof.
  intros Hnone. induction fuel as [|fuel IH]; intros w; [reflexivity|].
  cbn [connect_image_client]. unfold Prog.bind, image_client_call.
  rewrite Hnone. cbn. apply IH.
Qed.

(** X15.  The constructor of the localization server starts the server
    only after a call of the image service has succeeded: when call number
    [k] is the first to succeed, the constructor makes [k + 1] calls and
    then starts the server; and as long as no call succeeds, it goes on
    calling and the server is not started. *)
Theorem server_starts_after_first_image :
  (forall k fuel,
     (k < fuel)%nat ->
     (forall i, (i < k)%nat -> Localizer.image_client env i = None) ->
     Localizer.image_client env k <> None ->
     exists w,
       Prog.exec (constructor env fuel) init = Some w /\
       trace w = [WaitForAruco] ++ repeat CallImage (S k) ++ [StartServer] /\
       image_calls w = S k)
  /\
  ((forall i, Localizer.image_client env i = None) ->
   forall fuel, Prog.exec (constructor env fuel) init = None).
Proof.
  split.
  - intros k fuel Hf Hnone Hsome.
    unfold Prog.exec, constructor, Prog.bind. unfold emit at 1.
    rewrite (connect_answers k); [|exact Hf | exact Hnone | exact Hsome].
    cbn. eexists. split; [reflexivity|]. cbn. rewrite <- ?app_assoc. auto.
  - intros Hnone fuel.
    unfold Prog.exec, constructor, Prog.bind. unfold emit at 1.
    now rewrite connect_waits.
Qed.

End Constructor.

Import Examples.

Lemma server_starts_after_first_image_witness :
  exists w,
    Prog.exec (constructor bumpy 3) init = Some w /\
    trace w = [WaitForAruco] ++ repeat CallImage 2 ++ [StartServer] /\
    image_calls w = 2%nat.
Proof.
  apply (proj1 (server_starts_after_first_image bumpy) 1%nat 3%nat).
  - lia.
  - intros i Hi. destruct i as [|i]; [reflexivity | lia].
  - discriminate.
Defined.

End LocalizerStartupProps.

(** ** The launcher of the controller *)
Module ControllerLauncherProps.

Import ControllerLauncher.

(** *** Arrays *)

Lemma store_in_bounds (a : list Q) (i : nat) (v : Q) :
  (i < List.length a)%nat ->
  exists a',
    store a i v = Some a' /\
    List.length a' = List.length a /\
    nth i a' 0%Q = v /\
    forall j, j <> i -> nth j a' 0%Q = nth j a 0%Q.
Proof.
  intros Hi. unfold store. rewrite (proj2 (Nat.ltb_lt _ _) Hi).
  eexists. split; [reflexivity|].
  assert (Hlen : List.length (firstn i a) = i) by (rewrite length_firstn; lia).
  split; [|split].
  - rewrite length_app. cbn [List.length]. rewrite Hlen, length_skipn. lia.
  - rewrite app_nth2; rewrite Hlen; [|lia]. now rewrite Nat.sub_diag.
  - intros j Hj. destruct (Nat.lt_ge_cases j i) as [Hlt | Hge].
    + rewrite app_nth1 by (rewrite Hlen; exact Hlt).
      rewrite <- (firstn_skipn i a) at 2. rewrite app_nth1 by (rewrite Hlen; exact Hlt).
      reflexivity.
    + rewrite app_nth2 by (rewrite Hlen; lia). rewrite Hlen.
      destruct (j - i)%nat as [|d] eqn:Hd; [lia|]. cbn [nth].
      rewrite <- (firstn_skipn (S i) a) at 2.
      rewrite app_nth2; rewrite length_firstn; [|lia].
      f_equal. lia.
Qed.

Lemma store_out_of_bounds (a : list Q) (i : nat) (v : Q) :
  store a i v = None <-> (List.length a <= i)%nat.
Proof.
  unfold store. destruct (Nat.ltb_spec i (List.length a)); split; intros H';
    try discriminate; try lia; reflexivity.
Qed.

(** The two assignments for a joint, on arrays of the same length. *)
Lemma load_joint_spec (model : Model) (i : nat) (name : string) (lo up : list Q) :
  List.length up = List.length lo ->
  match load_joint model i name (lo, up) with
  | None => model name = None \/ (List.length lo <= i)%nat
  | Some (lo', up') =>
      exists limits,
        model name = Some limits /\ (i < List.length lo)%nat /\
        List.length lo' = List.length lo /\ List.length up' = List.length lo /\
        nth i lo' 0%Q = lower limits /\ nth i up' 0%Q = upper limits /\
        forall j, j <> i -> nth j lo' 0%Q = nth j lo 0%Q /\ nth j up' 0%Q = nth j up 0%Q
  end.
Proof.
  intros Hlen. unfold load_joint. cbn [fst snd].
  destruct (model name) as [limits|]; [|now left].
  destruct (Nat.lt_ge_cases i (List.length lo)) as [Hi | Hi].
  - destruct (store_in_bounds lo i (lower limits) Hi) as (lo' & -> & L1 & N1 & O1).
    assert (Hi' : (i < List.length up)%nat) by (rewrite Hlen; exact Hi).
    destruct (store_in_bounds up i (upper limits) Hi') as (up' & -> & L2 & N2 & O2).
    exists limits. repeat split; auto; try congruence.
  - rewrite (proj2 (store_out_of_bounds lo i (lower limits)) Hi). now right.
Qed.

Section Main.

Variable h : ControllerH.
Variable Time_minus : Time.t -> Time.t -> Duration.t.
Variable env : Env.

(** The description that [main] reads. *)
Let desc : string :=
  match robot_description env with
  | Some d => d
  | None => EmptyString
  end.

Lemma length_zero (s : string) : (String.length s =? 0)%nat = true <-> s = EmptyString.
Proof. destruct s; cbn; split; intros H; try discriminate; reflexivity. Qed.

(** The eight assignments, on arrays of the same length: either they all
    succeed, or a joint is missing or an index is out of the bounds. *)
Lemma load_limits_spec (model : Model) (lo up : list Q) :
  List.length up = List.length lo ->
  match load_limits h model (lo, up) with
  | None =>
      model "bin_joint"%string = None \/ (List.length lo <= kBin h)%nat \/
      model "lower_arm_joint"%string = None \/ (List.length lo <= kLowerArm h)%nat \/
      model "upper_arm_joint"%string = None \/ (List.length lo <= kUpperArm h)%nat \/
      model "scoop_joint"%string = None \/ (List.length lo <= kScoop h)%nat
  | Some (lo4, up4) =>
      exists b l u s lo1 up1 lo2 up2 lo3 up3,
        model "bin_joint"%string = Some b /\ model "lower_arm_joint"%string = Some l /\
        model "upper_arm_joint"%string = Some u /\ model "scoop_joint"%string = Some s /\
        (kBin h < List.length lo)%nat /\ (kLowerArm h < List.length lo)%nat /\
        (kUpperArm h < List.length lo)%nat /\ (kScoop h < List.length lo)%nat /\
        List.length lo4 = List.length lo /\ List.length up4 = List.length lo /\
        (nth (kBin h) lo1 0%Q = lower b /\ nth (kBin h) up1 0%Q = upper b /\
         forall j, j <> kBin h ->
           nth j lo1 0%Q = nth j lo 0%Q /\ nth j up1 0%Q = nth j up 0%Q) /\
        (nth (kLowerArm h) lo2 0%Q = lower l /\ nth (kLowerArm h) up2 0%Q = upper l /\
         forall j, j <> kLowerArm h ->
           nth j lo2 0%Q = nth j lo1 0%Q /\ nth j up2 0%Q = nth j up1 0%Q) /\
        (nth (kUpperArm h) lo3 0%Q = lower u /\ nth (kUpperArm h) up3 0%Q = upper u /\
         forall j, j <> kUpperArm h ->
           nth j lo3 0%Q = nth j lo2 0%Q /\ nth j up3 0%Q = nth j up2 0%Q) /\
        (nth (kScoop h) lo4 0%Q = lower s /\ nth (kScoop h) up4 0%Q = upper s /\
         forall j, j <> kScoop h ->
           nth j lo4 0%Q = nth j lo3 0%Q /\ nth j up4 0%Q = nth j up3 0%Q)
  end.
Proof.
  intros Hlen. unfold load_limits.
  pose proof (load_joint_spec model (kBin h) "bin_joint"%string lo up Hlen) as S1.
  destruct (load_joint model (kBin h) "bin_joint"%string (lo, up)) as [[lo1 up1]|];
    [|tauto].
  destruct S1 as (b & Mb & Ib & L1 & U1 & N1 & M1 & O1).
  assert (Hlen1 : List.length up1 = List.length lo1) by congruence.
  pose proof (load_joint_spec model (kLowerArm h) "lower_arm_joint"%string lo1 up1 Hlen1) as S2.
  destruct (load_joint model (kLowerArm h) "lower_arm_joint"%string (lo1, up1)) as [[lo2 up2]|];
    [|rewrite L1 in S2; tauto].
  destruct S2 as (l & Ml & Il & L2 & U2 & N2 & M2 & O2).
  assert (Hlen2 : List.length up2 = List.length lo2) by congruence.
  pose proof (load_joint_spec model (kUpperArm h) "upper_arm_joint"%string lo2 up2 Hlen2) as S3.
  destruct (load_joint model (kUpperArm h) "upper_arm_joint"%string (lo2, up2)) as [[lo3 up3]|];
    [|rewrite L2, L1 in S3; tauto].
  destruct S3 as (u & Mu & Iu & L3 & U3 & N3 & M3 & O3).
  assert (Hlen3 : List.length up3 = List.length lo3) by congruence.
  pose proof (load_joint_spec model (kScoop h) "scoop_joint"%string lo3 up3 Hlen3) as S4.
  destruct (load_joint model (kScoop h) "scoop_joint"%string (lo3, up3)) as [[lo4 up4]|];
    [|rewrite L3, L2, L1 in S4; tauto].
  destruct S4 as (s & Ms & Is & L4 & U4 & N4 & M4 & O4).
  exists b, l, u, s, lo1, up1, lo2, up2, lo3, up3.
  rewrite L1 in Il. rewrite L2, L1 in Iu. rewrite L3, L2, L1 in Is.
  repeat split; try assumption; try congruence; try (now apply O1);
    try (now apply O2); try (now apply O3); try (now apply O4).
Qed.

Lemma cycles_S (first n : nat) :
  cycles Time_minus env first (S n) =
  cycle Time_minus env first 0 ++ cycles Time_minus env (S first) n.
Proof.
  unfold cycles. cbn [seq flat_map]. f_equal.
  rewrite <- seq_shift, flat_map_concat_map, map_map, <- flat_map_concat_map.
  apply flat_map_ext. intros k. unfold cycle.
  rewrite !Nat.add_succ_r. reflexivity.
Qed.

(** The loop makes whole cycles until [ros::ok()] is false. *)
Lemma control_loop_cycles (n : nat) :
  forall fuel w first,
    (n < fuel)%nat ->
    now_calls w = S first ->
    (forall i, (i < n)%nat -> ok env (ok_calls w + i) = true) ->
    ok env (ok_calls w + n) = false ->
    exists w',
      control_loop Time_minus env fuel (now env first) w = Some (tt, w') /\
      trace w' = trace w ++ cycles Time_minus env first n.
Proof.
  induction n as [|n IH]; intros fuel w first Hf Hnow Hok Hdown;
    (destruct fuel as [|fuel]; [lia|]);
    cbn [control_loop]; unfold Prog.bind at 1, ros_ok.
  - rewrite Nat.add_0_r in Hdown. rewrite Hdown.
    eexists. split; [reflexivity|]. cbn. now rewrite app_nil_r.
  - assert (H0 := Hok 0%nat (Nat.lt_0_succ _)). rewrite Nat.add_0_r in H0.
    rewrite H0. unfold Prog.bind, ros_Time_now, emit. cbn [now_calls ok_calls trace].
    rewrite Hnow.
    match goal with |- context [control_loop Time_minus env fuel _ ?w1] =>
      destruct (IH fuel w1 (S first)) as (w' & E & T)
    end.
    + lia.
    + reflexivity.
    + intros i Hi. cbn. rewrite <- Nat.add_succ_r. apply Hok. lia.
    + cbn. now rewrite Nat.add_succ_r in Hdown.
    + exists w'. split; [exact E|]. rewrite T, cycles_S. cbn [trace].
      unfold cycle. rewrite !Nat.add_0_r, Nat.add_1_r, <- !app_assoc. reflexivity.
Qed.

(** X16.  The launcher returns -1 exactly when the robot description is
    empty (or the parameter is not set) or does not load as a model; it
    has then started the spinner and nothing else: no controller is
    constructed and the hardware is neither read nor written. *)
Theorem launcher_needs_a_model (fuel : nat) :
  (desc = EmptyString \/ initString env desc = None ->
   main h Time_minus env fuel init = Some (Returned (-1), mkWorld 0 0 [SpinnerStart]))
  /\
  (forall w,
     main h Time_minus env fuel init = Some (Returned (-1), w) ->
     desc = EmptyString \/ initString env desc = None).
Proof.
  unfold main, limits, Prog.bind. unfold emit at 1. cbn [use_fake_values].
  fold desc. split.
  - intros [Hd | Hi].
    + rewrite (proj2 (length_zero desc) Hd). reflexivity.
    + destruct (String.length desc =? 0)%nat; [reflexivity|]. rewrite Hi. reflexivity.
  - intros w. destruct (String.length desc =? 0)%nat eqn:Hl.
    + intros _. left. now apply length_zero.
    + destruct (initString env desc) as [model|]; [|now right].
      destruct (load_limits h model _) as [[lo up]|]; [|discriminate].
      unfold emit, ros_Time_now. cbn.
      destruct (control_loop Time_minus env fuel _ _) as [[u w']|]; discriminate.
Qed.

(** X17.  Once the limits are loaded, the launcher constructs the
    controller with them and then the manager, and runs whole cycles
    until [ros::ok()] is false: each cycle reads the hardware, updates the
    manager and writes the hardware, in this order; the update gets the
    time sampled at the top of its cycle and the difference between this
    time and the one of the sample before (the one taken before the loop,
    for the first cycle).  The launcher then returns 0. *)
Theorem launcher_runs_whole_cycles (n fuel : nat) (lower_limits upper_limits : list Q) :
  limits h env = inr (lower_limits, upper_limits) ->
  (n < fuel)%nat ->
  (forall i, (i < n)%nat -> ok env i = true) ->
  ok env n = false ->
  exists w,
    main h Time_minus env fuel init = Some (Returned 0, w) /\
    trace w =
      [SpinnerStart; ConstructController true lower_limits upper_limits; ConstructManager]
      ++ cycles Time_minus env 0 n.
Proof.
  intros Hl Hf Hok Hdown. unfold main. rewrite Hl.
  unfold Prog.bind at 1 2 3 4. unfold emit at 1 2 3, ros_Time_now. cbn.
  match goal with |- context [Prog.bind _ _ ?w1] =>
    destruct (control_loop_cycles n fuel w1 0%nat Hf eq_refl Hok Hdown) as (w' & E & T)
  end.
  unfold Prog.bind. rewrite E. cbn. exists w'. split; [reflexivity|]. exact T.
Qed.

(** X18.  When the description loads, the indices of the four actuators
    are different and within the arrays, and the model has the four
    joints with their limits, the controller gets two arrays of
    [kControllerCount] entries that hold, at the index of each actuator,
    the lower and the upper limit of its joint, and zero everywhere
    else. *)
Theorem limits_hold_the_joint_limits (model : Model) (b l u s : JointLimits) :
  desc <> EmptyString ->
  initString env desc = Some model ->
  NoDup [kBin h; kLowerArm h; kUpperArm h; kScoop h] ->
  (forall i, In i [kBin h; kLowerArm h; kUpperArm h; kScoop h] ->
             (i < kControllerCount h)%nat) ->
  model "bin_joint"%string = Some b ->
  model "lower_arm_joint"%string = Some l ->
  model "upper_arm_joint"%string = Some u ->
  model "scoop_joint"%string = Some s ->
  exists lo up,
    limits h env = inr (lo, up) /\
    List.length lo = kControllerCount h /\ List.length up = kControllerCount h /\
    (nth (kBin h) lo 0%Q = lower b /\ nth (kBin h) up 0%Q = upper b) /\
    (nth (kLowerArm h) lo 0%Q = lower l /\ nth (kLowerArm h) up 0%Q = upper l) /\
    (nth (kUpperArm h) lo 0%Q = lower u /\ nth (kUpperArm h) up 0%Q = upper u) /\
    (nth (kScoop h) lo 0%Q = lower s /\ nth (kScoop h) up 0%Q = upper s) /\
    (forall j, ~ In j [kBin h; kLowerArm h; kUpperArm h; kScoop h] ->
       nth j lo 0%Q = 0%Q /\ nth j up 0%Q = 0%Q).
Proof.
  intros Hd Hi Hnd Hin Mb Ml Mu Ms.
  unfold limits. cbn [use_fake_values]. fold desc.
  destruct (String.length desc =? 0)%nat eqn:Hl;
    [apply length_zero in Hl; contradiction|].
  rewrite Hi.
  pose proof (load_limits_spec model (repeat 0%Q (kControllerCount h))
                (repeat 0%Q (kControllerCount h)) eq_refl) as S.
  rewrite repeat_length in S.
  destruct (load_limits h model _) as [[lo4 up4]|].
  2:{ exfalso.
      assert (B := Hin (kBin h)). assert (L := Hin (kLowerArm h)).
      assert (U := Hin (kUpperArm h)). assert (C := Hin (kScoop h)).
      cbn in B, L, U, C.
      destruct S as [A | [A | [A | [A | [A | [A | [A | A]]]]]]];
        try congruence; lia. }
  destruct S as (b' & l' & u' & s' & lo1 & up1 & lo2 & up2 & lo3 & up3 &
                 Mb' & Ml' & Mu' & Ms' & _ & _ & _ & _ & L4 & U4 &
                 (N1 & M1 & O1) & (N2 & M2 & O2) & (N3 & M3 & O3) & (N4 & M4 & O4)).
  assert (b' = b) by congruence. assert (l' = l) by congruence.
  assert (u' = u) by congruence. assert (s' = s) by congruence. subst b' l' u' s'.
  inversion Hnd as [|? ? Hb Hnd1]; subst.
  inversion Hnd1 as [|? ? Hl' Hnd2]; subst.
  inversion Hnd2 as [|? ? Hu' Hnd3]; subst.
  cbn in Hb, Hl', Hu'.
  assert (BL : kBin h <> kLowerArm h) by lia.
  assert (BU : kBin h <> kUpperArm h) by lia.
  assert (BS : kBin h <> kScoop h) by lia.
  assert (LU : kLowerArm h <> kUpperArm h) by lia.
  assert (LS : kLowerArm h <> kScoop h) by lia.
  assert (US : kUpperArm h <> kScoop h) by lia.
  exists lo4, up4. split; [reflexivity|]. split; [exact L4|]. split; [exact U4|].
  split; [|split; [|split; [|split]]].
  - destruct (O4 _ BS) as [-> ->]. destruct (O3 _ BU) as [-> ->].
    destruct (O2 _ BL) as [-> ->]. auto.
  - destruct (O4 _ LS) as [-> ->]. destruct (O3 _ LU) as [-> ->]. auto.
  - destruct (O4 _ US) as [-> ->]. auto.
  - auto.
  - intros j Hj. cbn in Hj.
    assert (J1 : j <> kBin h) by lia. assert (J2 : j <> kLowerArm h) by lia.
    assert (J3 : j <> kUpperArm h) by lia. assert (J4 : j <> kScoop h) by lia.
    destruct (O4 _ J4) as [-> ->]. destruct (O3 _ J3) as [-> ->].
    destruct (O2 _ J2) as [-> ->]. destruct (O1 _ J1) as [-> ->].
    rewrite !nth_repeat. auto.
Qed.

(** X19.  When the description loads, loading the limits ends in
    undefined behaviour exactly when the model lacks one of the four joints
    (or its limits) or the index of one of the four actuators is not below
    [kControllerCount]; no controller is constructed then. *)
Theorem limits_undefined_exactly (model : Model) :
  desc <> EmptyString ->
  initString env desc = Some model ->
  (limits h env = inl Undefined <->
   model "bin_joint"%string = None \/ (kControllerCount h <= kBin h)%nat \/
   model "lower_arm_joint"%string = None \/ (kControllerCount h <= kLowerArm h)%nat \/
   model "upper_arm_joint"%string = None \/ (kControllerCount h <= kUpperArm h)%nat \/
   model "scoop_joint"%string = None \/ (kControllerCount h <= kScoop h)%nat).
Proof.
  intros Hd Hi. unfold limits. cbn [use_fake_values]. fold desc.
  destruct (String.length desc =? 0)%nat eqn:Hl;
    [apply length_zero in Hl; contradiction|].
  rewrite Hi.
  pose proof (load_limits_spec model (repeat 0%Q (kControllerCount h))
                (repeat 0%Q (kControllerCount h)) eq_refl) as S.
  rewrite repeat_length in S.
  destruct (load_limits h model _) as [[lo4 up4]|].
  - destruct S as (b & l & u & s & lo1 & up1 & lo2 & up2 & lo3 & up3 &
                   Mb & Ml & Mu & Ms & Ib & Il & Iu & Is & _).
    split; [discriminate|].
    intros [A | [A | [A | [A | [A | [A | [A | A]]]]]]]; try congruence; lia.
  - split; [intros _; exact S | reflexivity].
Qed.

End Main.

(** *** Examples *)

Import MoreExamples.

Lemma launcher_needs_a_model_witness :
  main four_actuators minus no_description 5 init
  = Some (Returned (-1), mkWorld 0 0 [SpinnerStart]).
Proof.
  apply (proj1 (launcher_needs_a_model four_actuators minus no_description 5)).
  left. reflexivity.
Defined.

Lemma launcher_runs_whole_cycles_witness :
  exists lo up w,
    limits four_actuators two_cycles = inr (lo, up) /\
    main four_actuators minus two_cycles 5 init = Some (Returned 0, w) /\
    trace w =
      [SpinnerStart; ConstructController true lo up; ConstructManager]
      ++ cycles minus two_cycles 0 2.
Proof.
  destruct (limits four_actuators two_cycles) as [e|[lo up]] eqn:L;
    [vm_compute in L; discriminate L|].
  destruct (launcher_runs_whole_cycles four_actuators minus two_cycles 2 5 lo up L)
    as (w & M & T).
  - lia.
  - intros i Hi. destruct i as [|[|i]]; [reflexivity | reflexivity | lia].
  - reflexivity.
  - exists lo, up, w. auto.
Defined.

Lemma limits_hold_the_joint_limits_witness :
  exists lo up,
    limits four_actuators two_cycles = inr (lo, up) /\
    nth 4 lo 0%Q = 0%Q /\ nth 4 up 0%Q = (3 # 2)%Q /\
    nth 0 lo 0%Q = 0%Q /\ nth 0 up 0%Q = 0%Q.
Proof.
  destruct (limits_hold_the_joint_limits four_actuators two_cycles arm
              (mkJointLimits 0 (3 # 2)) (mkJointLimits (-1 # 2) (1 # 2))
              (mkJointLimits (-1) 1) (mkJointLimits (-2) 2))
    as (lo & up & L & _ & _ & (B1 & B2) & _ & _ & _ & Z); try reflexivity.
  - discriminate.
  - repeat constructor; cbn; intuition discriminate.
  - intros i Hi. cbn in Hi. cbn. intuition (subst; lia).
  - exists lo, up. split; [exact L|]. split; [exact B1|]. split; [exact B2|].
    apply (Z 0%nat). cbn. intuition discriminate.
Defined.

Lemma limits_undefined_exactly_witness :
  limits four_actuators scoop_missing = inl Undefined.
Proof.
  apply (proj2 (limits_undefined_exactly four_actuators scoop_missing
                  arm_without_scoop ltac:(discriminate) eq_refl)).
  do 6 right. left. reflexivity.
Defined.

End ControllerLauncherProps.
